(** * CEM-RL: the training driver (ges.py) and the networks (models.py)

    A shallow embedding of the two Python modules and the properties their
    specification states about them.

    Conventions of the embedding.
    - Floating-point scalars (tensor entries, actions, rewards) are rationals
      [Q]; only order, sums and scaling matter below.
    - Python exceptions are values of [exn]; a call yields an [outcome].
    - Module-level globals assigned by the [__main__] block (env, memory,
      agent, es, max_action, args ...) are threaded as [globals] (read-only
      values) and [world] (mutable objects).
    - Modules of the repository the driver imports but that are not part of
      the two files (ES.py, ddpg.py, td3.py, memory.py, random_process.py,
      util.py) and the gym environment appear as interfaces (type classes).
    - The [while not done] loop of [evaluate] follows at most [fuel]
      iterations per episode; [evaluate_returns] gives the fuel that is
      enough when the environment ends its episodes.

    Layout: the embedding ([Models], [Ges]), a stub instance to run it on
    ([Stub], [StubMore]), the vocabulary of the properties ([Vocab],
    [More]), then the properties ([ModelsFacts], [GesFacts],
    [ModelsMore], [GesMore]) and their instances on the stub ([Runs],
    [RunsMore]). *)

From Stdlib Require Import ZArith QArith Qround Qminmax Lia Lqa.
From stdpp Require Import base list strings gmap.

(** ** Python outcomes *)

Inductive exn :=
| AttributeError (msg : string)
| RuntimeError (msg : string)
| TypeError (msg : string)
| ValueError (msg : string)
| UnboundLocalError (msg : string)
| FileNotFoundError (msg : string)
| IndexError (msg : string).

(** [OutOfFuel] is not a Python outcome: it marks a [while] loop of the
    model that was cut before the source's loop ended. *)
Inductive outcome (A : Type) :=
| Ok (a : A)
| Raise (e : exn)
| OutOfFuel.
Arguments Ok {A} a.
Arguments Raise {A} e.
Arguments OutOfFuel {A}.

Definition is_ok {A} (r : outcome A) : bool :=
  match r with Ok _ => true | _ => false end.

(** * models.py *)

Module Models.

(** A learnable tensor: [param.size()] and its entries in row-major
    (flattened) order. *)
Record tensor := Tensor { tsize : list nat; tdata : list Q }.

(** What [np.product] returns: numpy reduces a non-empty tuple of ints to
    an integer, and the empty tuple (a float64 array of length 0) to the
    float [1.0]. *)
Inductive np_scalar :=
| NpInt (n : nat)
| NpFloat (q : Q).

Definition prod_list (l : list nat) : nat := foldr Nat.mul 1 l.

Definition np_product (sz : list nat) : np_scalar :=
  match sz with
  | [] => NpFloat 1
  | _ => NpInt (prod_list sz)
  end.

(** [a[lo:hi]] on a 1-D array, for [0 <= lo <= hi]: out-of-range bounds are
    clamped, never an error. *)
Definition py_slice {A} (a : list A) (lo hi : nat) : list A :=
  take (hi - lo) (drop lo a).

(** [torch.from_numpy(a).view(sz)]: fails unless the element counts agree. *)
Definition view (a : list Q) (sz : list nat) : outcome tensor :=
  if length a =? prod_list sz
  then Ok (Tensor sz a)
  else Raise (RuntimeError "shape is invalid for input size").

(** [param.data.copy_(src)]: [param] keeps its size and takes [src]'s
    entries. *)
Definition copy_ (param src : tensor) : tensor :=
  Tensor (tsize param) (tdata src).

(** [RLNN.set_params]: the loop over [self.parameters()], with the running
    offset [cpt].  Tensors are overwritten in place, so the tensors already
    copied stay overwritten when a later one raises. *)
Fixpoint set_params_from (params : list Q) (cpt : nat) (ps : list tensor)
  : outcome unit * list tensor :=
  match ps with
  | [] => (Ok tt, [])
  | param :: rest =>
      match np_product (tsize param) with
      | NpFloat _ =>
          (Raise (TypeError "slice indices must be integers"), param :: rest)
      | NpInt tmp =>
          match view (py_slice params cpt (cpt + tmp)) (tsize param) with
          | Ok src =>
              let '(r, rest') := set_params_from params (cpt + tmp) rest in
              (r, copy_ param src :: rest')
          | Raise e => (Raise e, param :: rest)
          | OutOfFuel => (OutOfFuel, param :: rest)
          end
      end
  end.

Definition set_params (params : list Q) (ps : list tensor)
  : outcome unit * list tensor :=
  set_params_from params 0 ps.

(** [self.load_state_dict(sd)] of [RLNN.load_model] (torch's default
    [strict=True]), for a state dict given by its tensors in key order,
    the keys being those of the module's own tensors in the same order
    (state dicts of one class).  For a 0-dimensional tensor of the module
    a 1-dimensional entry stands for its first element ([input_param[0]],
    an [IndexError] at once when it has none). *)
Definition scalar_entry (param input : tensor) : outcome tensor :=
  match tsize param, tsize input with
  | [], [n] =>
      if n =? 0
      then Raise
             (IndexError
                "index 0 is out of bounds for dimension 0 with size 0")
      else Ok (Tensor [] (take 1 (tdata input)))
  | _, _ => Ok input
  end.

(** An entry whose size is that of the module's tensor is copied into it
    in place; an entry of another size, a tensor without entry (missing
    key) and an entry without tensor (unexpected key) are errors,
    collected while the copying goes on.  The first component is [Ok]
    with whether no error was collected, or the exception that stopped
    the loop. *)
Fixpoint load_tensors (own sd : list tensor)
  : outcome bool * list tensor :=
  match own, sd with
  | [], [] => (Ok true, [])
  | [], _ :: _ => (Ok false, [])
  | _ :: _, [] => (Ok false, own)
  | param :: own', input :: sd' =>
      match scalar_entry param input with
      | Ok input =>
          let '(r, rest) := load_tensors own' sd' in
          if bool_decide (tsize input = tsize param)
          then (r, copy_ param input :: rest)
          else (match r with Ok _ => Ok false | _ => r end, param :: rest)
      | Raise e => (Raise e, own)
      | OutOfFuel => (OutOfFuel, own)
      end
  end.

(** The collected errors are raised at the end, after the copies. *)
Definition load_state_dict (own sd : list tensor)
  : outcome unit * list tensor :=
  match load_tensors own sd with
  | (Ok true, ps) => (Ok tt, ps)
  | (Ok false, ps) =>
      (Raise (RuntimeError "Error(s) in loading state_dict"), ps)
  | (Raise e, ps) => (Raise e, ps)
  | (OutOfFuel, ps) => (OutOfFuel, ps)
  end.

(** [RLNN.get_params]: [np.hstack] of the flattened tensors; [np.hstack]
    rejects an empty sequence. *)
Definition get_params (ps : list tensor) : outcome (list Q) :=
  match ps with
  | [] => Raise (ValueError "need at least one array to concatenate")
  | _ => Ok (concat (map tdata ps))
  end.

(** [RLNN.get_size]: [self.get_params().shape[0]]. *)
Definition get_size (ps : list tensor) : outcome nat :=
  match get_params ps with
  | Ok v => Ok (length v)
  | Raise e => Raise e
  | OutOfFuel => OutOfFuel
  end.

(** The layers the constructors of models.py register, and the sizes of
    the tensors each contributes to [parameters()] (weight, then bias). *)
Inductive layer :=
| Linear (n_in n_out : nat)
| LayerNorm (n : nat).

Definition layer_sizes (l : layer) : list (list nat) :=
  match l with
  | Linear n_in n_out => [[n_out; n_in]; [n_out]]
  | LayerNorm n => [[n]; [n]]
  end.

(** The six network classes. *)
Inductive arch :=
| ActorERL
| CriticERL
| CriticTD3ERL
| Critic (layer_norm : bool)
| Actor (layer_norm : bool)
| CriticTD3 (layer_norm : bool).

(** Layers in the order [__init__] assigns them, which is the order of
    [parameters()]. *)
Definition layers (a : arch) (state_dim action_dim : nat) : list layer :=
  match a with
  | ActorERL =>
      [Linear state_dim 128; LayerNorm 128; Linear 128 128; LayerNorm 128;
       Linear 128 action_dim]
  | CriticERL =>
      [Linear state_dim 128; Linear action_dim 128; Linear 256 256;
       LayerNorm 256; Linear 256 1]
  | CriticTD3ERL =>
      [Linear state_dim 128; Linear action_dim 128; Linear 256 256;
       LayerNorm 256; Linear 256 1;
       Linear state_dim 128; Linear action_dim 128; Linear 256 256;
       LayerNorm 256; Linear 256 1]
  | Critic layer_norm =>
      [Linear (state_dim + action_dim) 400; Linear 400 300; Linear 300 1]
      ++ (if layer_norm then [LayerNorm 400; LayerNorm 300] else [])
  | Actor layer_norm =>
      [Linear state_dim 400; Linear 400 300; Linear 300 action_dim]
      ++ (if layer_norm then [LayerNorm 400; LayerNorm 300] else [])
  | CriticTD3 layer_norm =>
      [Linear (state_dim + action_dim) 400; Linear 400 300; Linear 300 1]
      ++ (if layer_norm then [LayerNorm 400; LayerNorm 300] else [])
      ++ [Linear (state_dim + action_dim) 400; Linear 400 300; Linear 300 1]
      ++ (if layer_norm then [LayerNorm 400; LayerNorm 300] else [])
  end.

Definition arch_sizes (a : arch) (state_dim action_dim : nat)
  : list (list nat) :=
  concat (map layer_sizes (layers a state_dim action_dim)).

(** A tensor holds as many entries as its size says. *)
Definition tensor_ok (t : tensor) : Prop :=
  length (tdata t) = prod_list (tsize t).

(** [ps] is a parameter state of a network of class [a]. *)
Definition params_of (a : arch) (state_dim action_dim : nat)
  (ps : list tensor) : Prop :=
  map tsize ps = arch_sizes a state_dim action_dim /\ Forall tensor_ok ps.

(** Scaling of the output by [self.max_action], as the [forward] methods
    of the two actor classes end; the critics return their last layer. *)
Definition scale (max_action : Z) (y : list (list Q)) : list (list Q) :=
  map (map (Qmult (inject_Z max_action))) y.

Section Forward.
(** The value of the network body on an input batch (up to and including
    the last [tanh] for the actors): a function of the class, the
    learnable tensors and the batch. *)
Variable body : arch -> list tensor -> list (list Q) -> list (list Q).

Definition forward (a : arch) (max_action : Z) (ps : list tensor)
  (x : list (list Q)) : list (list Q) :=
  match a with
  | ActorERL | Actor _ => scale max_action (body a ps x)
  | _ => body a ps x
  end.
End Forward.

End Models.

(** * ges.py *)

Module Ges.
Import Models.

(** ** Values *)

Definition obs := list Q.
Definition action := list Q.

(** A float that may be [nan] ([np.mean] of no scores). *)
Inductive npfloat :=
| NaN
| Fin (q : Q).

Definition sum_Q (l : list Q) : Q := foldr Qplus 0%Q l.

Definition np_mean (scores : list Q) : npfloat :=
  match scores with
  | [] => NaN
  | _ => Fin (sum_Q scores / inject_Z (Z.of_nat (length scores)))
  end.

(** [np.clip(a, a_min, a_max)] is [minimum(maximum(a, a_min), a_max)],
    elementwise. *)
Definition clip1 (a_min a_max x : Q) : Q := Qmin (Qmax x a_min) a_max.

Definition np_clip (a : list Q) (a_min a_max : Q) : list Q :=
  map (clip1 a_min a_max) a.

(** [a += d] on 1-D arrays: same length, or [d] of length 1 broadcast over
    [a]; anything else cannot be broadcast into [a]. *)
Definition np_iadd (a d : list Q) : outcome (list Q) :=
  if length d =? length a then Ok (zip_with Qplus a d)
  else match d with
       | [d0] => Ok (map (fun x => (x + d0)%Q) a)
       | _ => Raise (ValueError "operands could not be broadcast together")
       end.

(** [int(x)] of a finite float: truncation toward zero. *)
Definition py_int (x : Q) : Z := Z.quot (Qnum x) (Zpos (Qden x)).

(** A replay-memory entry [(obs, n_obs, action, reward, done)]. *)
Definition transition : Type := obs * obs * action * Q * bool.

(** A row of the score log [df]. *)
Record row := Row { total_steps : nat; best_score : Q }.

(** The command line ([argparse] namespace): the options ges.py reads. *)
Record Args := {
  mode : string;
  env : string;
  start_steps : Z;
  use_td3 : bool;
  pop_size : Z;
  es_sigma : Q;
  es_lr : Q;
  es_alpha : Q;
  es_beta : Q;
  es_k : Z;
  ou_theta : Q;
  ou_sigma : Q;
  ou_mu : Q;
  n_gen : Z;
  n_episodes : Z;
  omega : Z;
  mem_size : Z;
  filename : string;
  n_test : Z;
  output : string;
  debug : bool;
  seed : Z;
  render : bool
}.

(** Module-level names bound once by [__main__] and read by the functions. *)
Record globals := {
  args : Args;
  state_dim : nat;
  action_dim : nat;
  max_action : Z
}.

(** The [noise] argument of [evaluate]: [None] (the default), a boolean
    ([test] passes [False]), or the random-process object. *)
Inductive noise_arg :=
| NoiseNone
| NoiseBool (b : bool)
| NoiseProcess.

(** Calls on the gym environment, in program order. *)
Inductive env_event :=
| EnvReset
| EnvStep (a : action) (done : bool)
| EnvRender.

(** Other calls with an effect outside the driver, in program order. *)
Inductive call :=
| NpSeed (s : Z)
| EnvSeed (s : Z)
| EsAsk
| EsTell (fitness : list npfloat) (solutions : list (list Q))
| EsAdd (grad : list Q) (f : npfloat)
| TrainCritic (n_steps : nat)
| AgentSave (output : string)
| PrLightPurple (f : npfloat)
| PrPurple (n total_steps : nat).

(** ** Interfaces of what ges.py imports *)

(** The gym environment. *)
Class GymEnv := {
  env_state : Type;
  gym_make : string -> env_state;
  observation_space_shape0 : env_state -> nat;
  action_space_shape0 : env_state -> nat;
  action_space_high0 : env_state -> Q;
  action_space_sample : env_state -> action * env_state;
  env_reset : env_state -> obs * env_state;
  env_step : action -> env_state -> (obs * Q * bool) * env_state;
  env_render : env_state -> env_state;
  env_seed : Z -> env_state -> env_state
}.

(** memory.py: [Memory(mem_size)] and [add]. *)
Class ReplayMemory := {
  mem_state : Type;
  Memory : Z -> mem_state;
  mem_add : transition -> mem_state -> mem_state
}.

(** random_process.py: the Ornstein-Uhlenbeck process [a_noise]. *)
Class RandomProcess := {
  noise_state : Type;
  OrnsteinUhlenbeckProcess : nat -> Q -> Q -> Q -> noise_state;
  noise_sample : noise_state -> list Q * noise_state
}.

(** ddpg.py / td3.py: the agent, with its actor network, its critic as
    used by [RLNN.train_actor], [train_critic] and [save]. *)
Class Agent `{ReplayMemory} := {
  agent_state : Type;
  DDPG : nat -> nat -> Z -> Args -> agent_state;
  TD3 : nat -> nat -> Z -> Args -> agent_state;
  agent_actor : agent_state -> list tensor;
  train_critic : nat -> mem_state -> agent_state -> outcome agent_state;
  agent_save :
    string -> agent_state -> gmap string (list tensor) ->
    gmap string (list tensor);
  (** [RLNN.train_actor(critic, memory, batch_size)] of models.py, whose
      backward pass is not modelled: the flattened gradient of
      [-critic(state, self(state)).mean()] over a sampled minibatch, from
      the actor's tensors, the agent's critic and the memory *)
  train_actor :
    list tensor -> agent_state -> mem_state -> nat -> outcome (list Q)
}.

(** ES.py: the guided evolution strategy [es]. *)
Class Optimizer := {
  es_state : Type;
  GES : nat -> list Q -> Args -> es_state;
  es_ask : es_state -> list (list Q) * es_state;
  es_tell : list npfloat -> list (list Q) -> es_state -> es_state;
  es_mu : es_state -> list Q;
  es_add : list Q -> npfloat -> es_state -> es_state
}.

(** util.py: [get_output_folder(parent_dir, env_name)]. *)
Class Util := {
  get_output_folder : string -> string -> string
}.

(** An [ActorERL] object (ges.py imports it as [Actor]). *)
Record actor_net := ActorNet {
  a_max_action : Z;
  parameters : list tensor
}.

(** Names defined by [ActorERL] and its base [RLNN] ([nn.Module] defines
    none of the names looked up by ges.py beyond [cuda] and [__call__]). *)
Inductive rlnn_method :=
| M_forward
| M_set_params
| M_train_actor
| M_get_params
| M_get_grads
| M_get_size
| M_load_model
| M_save_model.

(** The namespace of the class, by attribute name. *)
Definition method_table : gmap string rlnn_method :=
  list_to_map
    [("forward", M_forward);
     ("set_params", M_set_params);
     ("train_actor", M_train_actor);
     ("get_params", M_get_params);
     ("get_grads", M_get_grads);
     ("get_size", M_get_size);
     ("load_model", M_load_model);
     ("save_model", M_save_model)].

(** [actor.<name>]: attribute lookup on an [ActorERL] instance. *)
Definition actor_getattr (name : string) : outcome rlnn_method :=
  match method_table !! name with
  | Some m => Ok m
  | None =>
      Raise (AttributeError
               ("'ActorERL' object has no attribute '" +:+ name +:+ "'"))
  end.

Section Driver.
Context `{GymEnv} `{Agent} `{RandomProcess} `{Optimizer} `{Util}.

(** The body of [ActorERL.forward] before the final scaling, and the
    tensors a freshly constructed [ActorERL(state_dim, action_dim, _)]
    starts with. *)
Variable body : arch -> list tensor -> list (list Q) -> list (list Q).
Variable actor_init : nat -> nat -> list tensor.

(** ** The mutable objects *)

Record world := World {
  w_env : env_state;
  memory : mem_state;
  a_noise : noise_state;
  agent : agent_state;
  es : es_state;
  env_log : list env_event;
  calls : list call;
  (** DataFrames written by [to_pickle], by path *)
  pickles : gmap string (list row);
  (** state dicts written by [torch.save], by path *)
  checkpoints : gmap string (list tensor)
}.

Definition M (A : Type) : Type := world -> outcome A * world.

Definition ret {A} (a : A) : M A := fun w => (Ok a, w).

Definition raise {A} (e : exn) : M A := fun w => (Raise e, w).

Definition out_of_fuel {A} : M A := fun w => (OutOfFuel, w).

Definition lift {A} (r : outcome A) : M A := fun w => (r, w).

Definition bind {A B} (m : M A) (k : A -> M B) : M B :=
  fun w =>
    match m w with
    | (Ok a, w') => k a w'
    | (Raise e, w') => (Raise e, w')
    | (OutOfFuel, w') => (OutOfFuel, w')
    end.

Notation "'do' x <- c1 ;; c2" := (bind c1 (fun x => c2))
  (at level 10, x name, c1 at level 99, c2 at level 200, only parsing).
Notation "'do' ' pat <- c1 ;; c2" :=
  (bind c1 (fun x => match x with pat => c2 end))
  (at level 10, pat pattern, c1 at level 99, c2 at level 200,
   only parsing).

Definition when (b : bool) (m : M unit) : M unit :=
  if b then m else ret tt.

(** ** Calls on the objects *)

Definition reset_env : M obs := fun w =>
  let '(o, s) := env_reset (w_env w) in
  (Ok o, World s (memory w) (a_noise w) (agent w) (es w)
            (env_log w ++ [EnvReset]) (calls w) (pickles w) (checkpoints w)).

Definition step_env (a : action) : M (obs * Q * bool) := fun w =>
  let '(o, r, d, s) := env_step a (w_env w) in
  (Ok (o, r, d), World s (memory w) (a_noise w) (agent w) (es w)
            (env_log w ++ [EnvStep a d]) (calls w) (pickles w)
            (checkpoints w)).

Definition render_env : M unit := fun w =>
  (Ok tt, World (env_render (w_env w)) (memory w) (a_noise w) (agent w)
            (es w) (env_log w ++ [EnvRender]) (calls w) (pickles w)
            (checkpoints w)).

Definition sample_action : M action := fun w =>
  let '(a, s) := action_space_sample (w_env w) in
  (Ok a, World s (memory w) (a_noise w) (agent w) (es w)
            (env_log w) (calls w) (pickles w) (checkpoints w)).

Definition memory_add (tr : transition) : M unit := fun w =>
  (Ok tt, World (w_env w) (mem_add tr (memory w)) (a_noise w) (agent w)
            (es w) (env_log w) (calls w) (pickles w) (checkpoints w)).

Definition sample_noise : M (list Q) := fun w =>
  let '(d, s) := noise_sample (a_noise w) in
  (Ok d, World (w_env w) (memory w) s (agent w) (es w)
            (env_log w) (calls w) (pickles w) (checkpoints w)).

Definition log_call (c : call) : M unit := fun w =>
  (Ok tt, World (w_env w) (memory w) (a_noise w) (agent w) (es w)
            (env_log w) (calls w ++ [c]) (pickles w) (checkpoints w)).

Definition ask : M (list (list Q)) := fun w =>
  let '(pop, s) := es_ask (es w) in
  (Ok pop, World (w_env w) (memory w) (a_noise w) (agent w) s
            (env_log w) (calls w ++ [EsAsk]) (pickles w) (checkpoints w)).

Definition tell (fitness : list npfloat) (solutions : list (list Q))
  : M unit := fun w =>
  (Ok tt, World (w_env w) (memory w) (a_noise w) (agent w)
            (es_tell fitness solutions (es w))
            (env_log w) (calls w ++ [EsTell fitness solutions])
            (pickles w) (checkpoints w)).

Definition add (grad : list Q) (f : npfloat) : M unit := fun w =>
  (Ok tt, World (w_env w) (memory w) (a_noise w) (agent w)
            (es_add grad f (es w))
            (env_log w) (calls w ++ [EsAdd grad f])
            (pickles w) (checkpoints w)).

Definition mu : M (list Q) := fun w => (Ok (es_mu (es w)), w).

Definition agent_train_critic (n_steps : nat) : M unit := fun w =>
  let w1 := World (w_env w) (memory w) (a_noise w) (agent w) (es w)
              (env_log w) (calls w ++ [TrainCritic n_steps]) (pickles w)
              (checkpoints w) in
  match train_critic n_steps (memory w) (agent w) with
  | Ok ag =>
      (Ok tt, World (w_env w) (memory w) (a_noise w) ag (es w)
                (env_log w) (calls w ++ [TrainCritic n_steps]) (pickles w)
                (checkpoints w))
  | Raise e => (Raise e, w1)
  | OutOfFuel => (OutOfFuel, w1)
  end.

Definition save (output : string) : M unit := fun w =>
  (Ok tt, World (w_env w) (memory w) (a_noise w) (agent w) (es w)
            (env_log w) (calls w ++ [AgentSave output]) (pickles w)
            (agent_save output (agent w) (checkpoints w))).

Definition to_pickle (df : list row) (path : string) : M unit := fun w =>
  (Ok tt, World (w_env w) (memory w) (a_noise w) (agent w) (es w)
            (env_log w) (calls w) (<[path := df]> (pickles w))
            (checkpoints w)).

Definition torch_load (path : string) : M (list tensor) := fun w =>
  match checkpoints w !! path with
  | Some sd => (Ok sd, w)
  | None => (Raise (FileNotFoundError path), w)
  end.

(** [actor.set_params(v)]: the tensors of [actor] are replaced in place
    even when the call raises. *)
Definition actor_set_params (actor : actor_net) (v : list Q)
  : outcome actor_net :=
  match set_params v (parameters actor) with
  | (Ok _, ps) => Ok (ActorNet (a_max_action actor) ps)
  | (Raise e, _) => Raise e
  | (OutOfFuel, _) => OutOfFuel
  end.

(** [actor(state)] on the one-row batch [state.reshape(-1, state_dim)],
    flattened. *)
Definition actor_call (actor : actor_net) (state : obs) : action :=
  concat (forward body ActorERL (a_max_action actor) (parameters actor)
            [state]).

(** [actor.load_state_dict(sd)]: the outcome of the call, and the
    object after it; the tensors that could be copied are replaced in
    place also when the call raises. *)
Definition actor_load_state_dict (actor : actor_net) (sd : list tensor)
  : outcome unit * actor_net :=
  let '(r, ps) := load_state_dict (parameters actor) sd in
  (r, ActorNet (a_max_action actor) ps).

(** [RLNN.load_model(filename, net_name)].  The value is the object after
    a normal return; when the call raises, the object is as
    [actor_load_state_dict] leaves it, and the exception leaves the caller
    in ges.py without a reference to it. *)
Definition load_model (actor : actor_net) (filename : option string)
  (net_name : string) : M actor_net :=
  match filename with
  | None => ret actor
  | Some dir =>
      do sd <- torch_load (dir +:+ "/" +:+ net_name +:+ ".pkl") ;;
      match actor_load_state_dict actor sd with
      | (Ok _, actor) => ret actor
      | (Raise e, _) => raise e
      | (OutOfFuel, _) => out_of_fuel
      end
  end.

(** ** evaluate *)

(** The closure [policy] that [evaluate] defines from [random], [actor]
    and [noise]. *)
Definition policy (g : globals) (actor : actor_net) (random : bool)
  (noise : noise_arg) (state : obs) : M action :=
  if negb random then
    let action := actor_call actor state in
    do action <-
      match noise with
      | NoiseNone => ret action
      | NoiseBool _ =>
          raise (AttributeError "'bool' object has no attribute 'sample'")
      | NoiseProcess => do d <- sample_noise ;; lift (np_iadd action d)
      end ;;
    ret (np_clip action (inject_Z (- max_action g))
           (inject_Z (max_action g)))
  else sample_action.

(** The [while not done] loop of one episode; [fuel] bounds the number
    of iterations the model follows. *)
Fixpoint episode (fuel : nat) (g : globals) (actor : actor_net)
  (random : bool) (noise : noise_arg) (render add_memory : bool)
  (obs0 : obs) (score : Q) (steps : nat) : M (Q * nat) :=
  match fuel with
  | 0 => out_of_fuel
  | S fuel' =>
      do action <- policy g actor random noise obs0 ;;
      do '(n_obs, reward, done) <- step_env action ;;
      let score := (score + reward)%Q in
      let steps := steps + 1 in
      do _ <- when add_memory
                (memory_add (obs0, n_obs, action, reward, done)) ;;
      do _ <- when render render_env ;;
      do _ <- when done (do _ <- reset_env ;; ret tt) ;;
      if done then ret (score, steps)
      else episode fuel' g actor random noise render add_memory
             n_obs score steps
  end.

(** The [for _ in range(n_episodes)] loop. *)
Fixpoint episodes (fuel : nat) (g : globals) (actor : actor_net)
  (random : bool) (noise : noise_arg) (render add_memory : bool)
  (todo : nat) (scores : list Q) (steps : nat) : M (list Q * nat) :=
  match todo with
  | 0 => ret (scores, steps)
  | S todo' =>
      do obs0 <- reset_env ;;
      do '(score, steps) <-
        episode fuel g actor random noise render add_memory obs0 0%Q
          steps ;;
      episodes fuel g actor random noise render add_memory todo'
        (scores ++ [score]) steps
  end.

Definition evaluate (fuel : nat) (g : globals) (actor : actor_net)
  (n_episodes : Z) (random : bool) (noise : noise_arg)
  (render add_memory : bool) : M (npfloat * nat) :=
  do '(scores, steps) <-
    episodes fuel g actor random noise render add_memory
      (Z.to_nat n_episodes) [] 0 ;;
  ret (np_mean scores, steps).

(** ** train_es *)

(** Calling the bound method found under a name of [RLNN] with the
    arguments [(critic, memory, batch_size=1024)]: only [train_actor]
    takes them. *)
Definition call_with_critic (m : rlnn_method) (actor : actor_net)
  (batch_size : nat) : M (list Q) :=
  match m with
  | M_train_actor => fun w =>
      (train_actor (parameters actor) (agent w) (memory w) batch_size,
       w)
  | _ => raise (TypeError "got an unexpected keyword argument 'batch_size'")
  end.

(** The [for actor_params in actors_params] loop; [f] is the loop's
    last fitness, unbound before the first iteration. *)
Fixpoint population (fuel : nat) (g : globals) (n_episodes : Z)
  (debug render random : bool) (actors_params : list (list Q))
  (actor : actor_net) (batch_steps : nat) (fitness : list npfloat)
  (f : option npfloat)
  : M (actor_net * nat * list npfloat * option npfloat) :=
  match actors_params with
  | [] => ret (actor, batch_steps, fitness, f)
  | actor_params :: rest =>
      do actor <- lift (actor_set_params actor actor_params) ;;
      do '(f, steps) <-
        evaluate fuel g actor n_episodes random NoiseNone render true ;;
      let batch_steps := batch_steps + steps in
      let fitness := fitness ++ [f] in
      do _ <- when debug (log_call (PrLightPurple f)) ;;
      population fuel g n_episodes debug render random rest actor
        batch_steps fitness (Some f)
  end.

Definition train_es (fuel : nat) (g : globals) (n_episodes : Z)
  (debug render random : bool) : M nat :=
  let batch_steps := 0 in
  let actor :=
    ActorNet (max_action g) (actor_init (state_dim g) (action_dim g)) in
  do actors_params <- ask ;;
  do '(actor, batch_steps, fitness, f) <-
    population fuel g n_episodes debug render random actors_params actor
      batch_steps [] None ;;
  do _ <- tell fitness actors_params ;;
  do es_mu <- mu ;;
  do actor <- lift (actor_set_params actor es_mu) ;;
  do actor_grad <- lift (actor_getattr "actor_grad") ;;
  do grad <- call_with_critic actor_grad actor 1024 ;;
  do f <-
    match f with
    | Some f => ret f
    | None =>
        raise
          (UnboundLocalError
             "local variable 'f' referenced before assignment")
    end ;;
  do _ <- add grad f ;;
  ret batch_steps.

(** ** train_rl *)

Definition train_rl (n_episodes : Z) (n_steps : nat)
  (debug render random : bool) : M (nat * Q) :=
  do _ <- agent_train_critic n_steps ;;
  ret (0, 0%Q).

(** ** train *)

(** The [for n in range(n_gen)] loop; [train_es] is the global name the
    loop body calls. *)
Fixpoint generations
  (train_es : Z -> bool -> bool -> bool -> M nat)
  (g : globals) (n_episodes : Z) (output : string) (debug render : bool)
  (todo n : nat) (total_steps : nat) (df : list row) : M unit :=
  match todo with
  | 0 => ret tt
  | S todo' =>
      let random := (Z.of_nat total_steps <? start_steps (args g))%Z in
      do steps_ea <- train_es n_episodes debug render random ;;
      do '(steps_rl, f) <-
        train_rl n_episodes steps_ea debug render random ;;
      let total_steps := total_steps + (steps_rl + steps_ea) in
      do _ <- save output ;;
      do _ <- to_pickle df (output +:+ "/log.pkl") ;;
      let best_score := f in
      let df := df ++ [Row total_steps best_score] in
      do _ <- when debug (log_call (PrPurple n total_steps)) ;;
      generations train_es g n_episodes output debug render todo' (S n)
        total_steps df
  end.

Definition train (fuel : nat) (g : globals) (n_gen n_episodes omega : Z)
  (output : string) (debug render : bool) : M unit :=
  generations (train_es fuel g) g n_episodes output debug render
    (Z.to_nat n_gen) 0 0 [].

(** ** test *)

Definition test (fuel : nat) (g : globals) (n_test : Z)
  (filename : string) (debug render : bool) : M unit :=
  let actor :=
    ActorNet (max_action g) (actor_init (state_dim g) (action_dim g)) in
  do actor <- load_model actor (Some filename) "actor" ;;
  do '(f, _) <-
    evaluate fuel g actor n_test false (NoiseBool false) render true ;;
  when debug (log_call (PrLightPurple f)).

(** ** __main__ *)

(** [np.random.seed(seed)] for an integer: numpy accepts the 32-bit
    unsigned range only. *)
Definition np_random_seed (seed : Z) : outcome unit :=
  if ((0 <=? seed) && (seed <? 2 ^ 32))%Z then Ok tt
  else Raise (ValueError "Seed must be between 0 and 2**32 - 1").

(** [if args.seed > 0: np.random.seed(args.seed); env.seed(args.seed)]:
    the outcome, the seeding calls that took effect and the environment
    after them.  When [np.random.seed] raises, nothing has been seeded
    and [env.seed] is not reached. *)
Definition seed_sources (seed : Z) (e : env_state)
  : outcome unit * list call * env_state :=
  if (seed >? 0)%Z then
    match np_random_seed seed with
    | Ok _ => (Ok tt, [NpSeed seed; EnvSeed seed], env_seed seed e)
    | Raise x => (Raise x, [], e)
    | OutOfFuel => (OutOfFuel, [], e)
    end
  else (Ok tt, [], e).

Definition set_output (a : Args) (o : string) : Args :=
  Build_Args (mode a) (env a) (start_steps a) (use_td3 a) (pop_size a)
    (es_sigma a) (es_lr a) (es_alpha a) (es_beta a) (es_k a) (ou_theta a)
    (ou_sigma a) (ou_mu a) (n_gen a) (n_episodes a) (omega a) (mem_size a)
    (filename a) (n_test a) o (debug a) (seed a) (render a).

(** Everything [__main__] does before it looks at [args.mode]; the
    files already on disk are [pk] and [ck]. *)
Definition startup (a : Args) (pk : gmap string (list row))
  (ck : gmap string (list tensor)) : outcome (globals * world) :=
  let a := set_output a (get_output_folder (output a) (env a)) in
  let e := gym_make (env a) in
  let state_dim := observation_space_shape0 e in
  let action_dim := action_space_shape0 e in
  let max_action := py_int (action_space_high0 e) in
  match seed_sources (seed a) e with
  | (Raise x, _, _) => Raise x
  | (OutOfFuel, _, _) => OutOfFuel
  | (Ok _, seeds, e) =>
      let memory := Memory (mem_size a) in
      let a_noise :=
        OrnsteinUhlenbeckProcess action_dim (ou_mu a) (ou_theta a)
          (ou_sigma a) in
      let agent :=
        if use_td3 a then TD3 state_dim action_dim max_action a
        else DDPG state_dim action_dim max_action a in
      match get_size (agent_actor agent), get_params (agent_actor agent)
      with
      | Ok n, Ok mu_init =>
          Ok (Build_globals a state_dim action_dim max_action,
              World e memory a_noise agent (GES n mu_init a) [] seeds pk
                ck)
      | Ok _, Raise e' | Raise e', _ => Raise e'
      | _, _ => OutOfFuel
      end
  end.

(** The [if args.mode == ...] chain that ends [__main__]. *)
Definition dispatch (fuel : nat) (g : globals) : M unit :=
  let a := args g in
  if String.eqb (mode a) "train" then
    train fuel g (n_gen a) (n_episodes a) (omega a) (output a) (debug a)
      (render a)
  else if String.eqb (mode a) "test" then
    test fuel g (n_test a) (filename a) (debug a) (render a)
  else raise (RuntimeError ("undefined mode " +:+ mode a)).

(** A computation run on the objects [startup] built. *)
Definition run {A} (m : M A) (w : world) : outcome A * option world :=
  let '(r, w') := m w in (r, Some w').

Definition main (fuel : nat) (a : Args) (pk : gmap string (list row))
  (ck : gmap string (list tensor)) : outcome unit * option world :=
  match startup a pk ck with
  | Ok (g, w) => run (dispatch fuel g) w
  | Raise e => (Raise e, None)
  | OutOfFuel => (OutOfFuel, None)
  end.

End Driver.

End Ges.

(** * A stub instance

    A deterministic environment with episodes of a fixed number of steps
    and reward 1 per step, and the simplest objects behind the other
    interfaces; used to run the driver on concrete inputs. *)

Module Stub.
Import Models Ges.

Definition zeros (sizes : list (list nat)) : list tensor :=
  map (fun sz => Tensor sz (repeat 0%Q (prod_list sz))) sizes.

(** [nn.Linear(1, 1)] alone: a weight of size [1, 1] and a bias of size
    [1]. *)
Definition linear11 : list tensor := zeros (layer_sizes (Linear 1 1)).

Definition stub_env (horizon : nat) (high : Q) : GymEnv := {|
  env_state := nat;
  gym_make := fun _ => 0;
  observation_space_shape0 := fun _ => 1;
  action_space_shape0 := fun _ => 1;
  action_space_high0 := fun _ => high;
  action_space_sample := fun t => ([high], t);
  env_reset := fun _ => ([0%Q], 0);
  env_step := fun _ t =>
    ([inject_Z (Z.of_nat (S t))], 1%Q, horizon <=? S t, S t);
  env_render := fun t => t;
  env_seed := fun _ t => t
|}.

#[export] Instance stub_memory : ReplayMemory := {|
  mem_state := list transition;
  Memory := fun _ => [];
  mem_add := fun tr m => m ++ [tr]
|}.

#[export] Instance stub_noise : RandomProcess := {|
  noise_state := unit;
  OrnsteinUhlenbeckProcess := fun _ _ _ _ => tt;
  noise_sample := fun s => ([5%Q], s)
|}.

#[export] Instance stub_agent : Agent := {|
  agent_state := unit;
  DDPG := fun _ _ _ _ => tt;
  TD3 := fun _ _ _ _ => tt;
  agent_actor := fun _ => linear11;
  train_critic := fun _ _ ag => Ok ag;
  agent_save := fun output _ ck => <[output +:+ "/actor.pkl" := linear11]> ck;
  train_actor := fun ps _ _ _ => Ok (concat (map tdata ps))
|}.

(** An optimizer whose population is two copies of its mean. *)
#[export] Instance stub_es : Optimizer := {|
  es_state := list Q;
  GES := fun _ mu_init _ => mu_init;
  es_ask := fun m => ([m; m], m);
  es_tell := fun _ _ m => m;
  es_mu := fun m => m;
  es_add := fun _ _ m => m
|}.

#[export] Instance stub_util : Util := {|
  get_output_folder := fun parent_dir env_name =>
    parent_dir +:+ "/" +:+ env_name +:+ "-run0"
|}.

(** An actor body that answers 1/2 on every row. *)
Definition stub_body (a : arch) (ps : list tensor) (x : list (list Q))
  : list (list Q) :=
  map (fun _ => [1 # 2]%Q) x.

Definition stub_actor_init (state_dim action_dim : nat) : list tensor :=
  linear11.

(** The defaults of the argument parser. *)
Definition default_args : Args := {|
  mode := "train";
  env := "HalfCheetah-v2";
  start_steps := 10000;
  use_td3 := false;
  pop_size := 10;
  es_sigma := 1 # 10;
  es_lr := 1 # 1000;
  es_alpha := 1 # 2;
  es_beta := 2;
  es_k := 1;
  ou_theta := 15 # 100;
  ou_sigma := 2 # 10;
  ou_mu := 0;
  n_gen := 100;
  n_episodes := 1;
  omega := 10;
  mem_size := 1000000;
  filename := "";
  n_test := 1;
  output := "results";
  debug := false;
  seed := -1;
  render := false
|}.

(** The globals and the objects as [__main__] leaves them for an
    environment with 5-step episodes and action bound 1. *)
Definition stub_globals : globals := Build_globals default_args 1 1 1.

Definition stub_world : world (H := stub_env 5 1) :=
  World (H := stub_env 5 1) 0 [] tt tt [0%Q; 0%Q] [] [] ∅ ∅.

(** The same objects with an actor saved under ["run"]. *)
Definition saved_world : world (H := stub_env 5 1) :=
  World (H := stub_env 5 1) 0 [] tt tt [0%Q; 0%Q] [] [] ∅
    {["run/actor.pkl" := linear11]}.

(** A generation step that returns at once, having used 5 steps. *)
Definition five_steps
  : Z -> bool -> bool -> bool -> M (H := stub_env 5 1) nat :=
  fun _ _ _ _ => ret 5.

(** The globals and objects [startup] builds for arguments [a], for the
    environment with action bound [high], on an empty disk. *)
Definition started (high : Q) (a : Args)
  : globals * world (H := stub_env 5 high) :=
  match startup (H := stub_env 5 high) a ∅ ∅ with
  | Ok gw => gw
  | _ =>
      (stub_globals,
       World (H := stub_env 5 high) 0 [] tt tt [] [] [] ∅ ∅)
  end.

Definition with_mode (m : string) (a : Args) : Args :=
  Build_Args m (env a) (start_steps a) (use_td3 a) (pop_size a)
    (es_sigma a) (es_lr a) (es_alpha a) (es_beta a) (es_k a) (ou_theta a)
    (ou_sigma a) (ou_mu a) (n_gen a) (n_episodes a) (omega a) (mem_size a)
    (filename a) (n_test a) (output a) (debug a) (seed a) (render a).

Definition with_seed (s : Z) (a : Args) : Args :=
  Build_Args (mode a) (env a) (start_steps a) (use_td3 a) (pop_size a)
    (es_sigma a) (es_lr a) (es_alpha a) (es_beta a) (es_k a) (ou_theta a)
    (ou_sigma a) (ou_mu a) (n_gen a) (n_episodes a) (omega a) (mem_size a)
    (filename a) (n_test a) (output a) (debug a) s (render a).

End Stub.

(** * Vocabulary of the properties *)

Module Vocab.
Import Models Ges.

Definition numel (t : tensor) : nat := prod_list (tsize t).

(** Number of entries of all tensors, and of those before position [i]. *)
Definition count (ps : list tensor) : nat := sum_list (map numel ps).

Definition offset (ps : list tensor) (i : nat) : nat := count (take i ps).

(** No tensor is a 0-dimensional scalar. *)
Definition ranked (ps : list tensor) : Prop :=
  Forall (fun t => tsize t <> []) ps.

(** The tensors obtained by cutting [v] from position [cpt] on. *)
Fixpoint fill (v : list Q) (cpt : nat) (ps : list tensor) : list tensor :=
  match ps with
  | [] => []
  | p :: rest =>
      Tensor (tsize p) (take (prod_list (tsize p)) (drop cpt v))
        :: fill v (cpt + prod_list (tsize p)) rest
  end.

(** The entries of a vector lie in [[-m, m]]. *)
Definition within (m : Z) (a : list Q) : Prop :=
  Forall (fun x => (inject_Z (- m) <= x /\ x <= inject_Z m)%Q) a.

(** A vector that [np.clip(_, -max_action, max_action)] returned. *)
Definition clipped (g : globals) (a : action) : Prop :=
  exists raw,
    a = np_clip raw (inject_Z (- max_action g)) (inject_Z (max_action g)).

(** The entries of a vector are zero. *)
Definition all_zero (a : list Q) : Prop := Forall (fun x => (x == 0)%Q) a.

(** A property of the actions handed to [env.step]. *)
Definition steps_satisfy (P : action -> Prop) (e : env_event) : Prop :=
  match e with
  | EnvStep a _ => P a
  | _ => True
  end.

Definition not_step (e : env_event) : Prop :=
  match e with
  | EnvStep _ _ => False
  | _ => True
  end.

Definition not_add (c : call) : Prop :=
  match c with
  | EsAdd _ _ => False
  | _ => True
  end.

(** The environment calls of one [env.step], with its [render]. *)
Definition step_events (render : bool) (a : action) (done : bool)
  : list env_event :=
  EnvStep a done :: (if render then [EnvRender] else []).

(** The environment calls of one finished episode: the reset that starts
    it, the steps that did not end it, the step that reported [done], and
    the reset that follows at once. *)
Definition episode_events (render : bool) (running : list action)
  (last : action) : list env_event :=
  EnvReset :: concat (map (fun a => step_events render a false) running)
    ++ step_events render last true ++ [EnvReset].

(** The environment calls of [n] finished episodes in a row. *)
Inductive episodes_events (render : bool) : nat -> list env_event -> Prop :=
| no_episode : episodes_events render 0 []
| one_more_episode n running last t :
    episodes_events render n t ->
    episodes_events render (S n) (episode_events render running last ++ t).

(** ** Triples over the world monad

    [triple R m Q]: whatever the outcome of [m], the worlds before and
    after are related by [R]; when [m] returns normally its value
    satisfies [Q]. *)

Section WorldRelations.
Context `{GymEnv} `{Agent} `{RandomProcess} `{Optimizer}.

Definition triple {A} (R : world -> world -> Prop) (m : M A)
  (Q : A -> Prop) : Prop :=
  forall w r w', m w = (r, w') -> R w w' /\ forall a, r = Ok a -> Q a.

Definition any {A} : A -> Prop := fun _ => True.

(** The relations used below: a log grows by entries that satisfy [p]; a
    component of the world keeps its value. *)
Definition grows {E} (log : world -> list E) (p : E -> Prop)
  (w w' : world) : Prop :=
  exists t, log w' = log w ++ t /\ Forall p t.

Definition keeps {X} (f : world -> X) (w w' : world) : Prop := f w' = f w.

End WorldRelations.

(** Case analysis on the calls an equation between runs mentions. *)
Ltac run_call E :=
  repeat match type of E with
         | context [let '(_, _) := ?x in _] => destruct x
         end;
  inversion E; subst; clear E.

Ltac run_calls :=
  repeat match goal with
         | E : context [noise_sample ?x] |- _ =>
             destruct (noise_sample x); simpl in E
         | E : context [action_space_sample ?x] |- _ =>
             destruct (action_space_sample x); simpl in E
         | E : context [np_iadd ?x ?y] |- _ =>
             destruct (np_iadd x y); simpl in E
         | E : (_, _) = (_, _) |- _ => inversion E; subst; clear E
         end.

End Vocab.

(** * More of the two files: vocabulary and [save_model] *)

Module More.
Import Models Ges Vocab.

(** The parameter count of each network class, in closed form. *)
Definition param_count (a : arch) (sd ad : Z) : Z :=
  match a with
  | ActorERL => 128 * sd + 129 * ad + 17152
  | CriticERL => 128 * (sd + ad) + 66817
  | CriticTD3ERL => 2 * (128 * (sd + ad) + 66817)
  | Critic layer_norm =>
      400 * (sd + ad) + 121001 + (if layer_norm then 1400 else 0)
  | Actor layer_norm =>
      400 * sd + 301 * ad + 120700 + (if layer_norm then 1400 else 0)
  | CriticTD3 layer_norm =>
      2 * (400 * (sd + ad) + 121001 + (if layer_norm then 1400 else 0))
  end%Z.

(** The [env.step] calls of a log, in order: action and [done] flag. *)
Fixpoint steps_of (t : list env_event) : list (action * bool) :=
  match t with
  | [] => []
  | EnvStep a d :: t' => (a, d) :: steps_of t'
  | _ :: t' => steps_of t'
  end.

(** What a replay-memory entry says of the step it records. *)
Definition step_of (tr : transition) : action * bool :=
  let '(_, _, a, _, d) := tr in (a, d).

Definition reward_of (tr : transition) : Q :=
  let '(_, _, _, r, _) := tr in r.

(** [memory.add] of each entry in turn. *)
Definition add_all `{ReplayMemory} (trs : list transition) (m : mem_state)
  : mem_state :=
  foldl (fun m tr => mem_add tr m) m trs.

(** The entries of a vector lie in [[-b, b]], for a rational bound. *)
Definition within_Q (b : Q) (a : list Q) : Prop :=
  Forall (fun x => (- b <= x /\ x <= b)%Q) a.


Section Replay.
Context `{GymEnv}.

(** The environment calls of a run of [evaluate], made again from the
    environment state [s]: the rewards the [env.step] calls return, in
    order, and the state after the last call.  With [random] the policy
    draws from [env.action_space] before each step, which is not in the
    log of calls but moves the environment's state. *)
Fixpoint rewards_from (random : bool) (t : list env_event) (s : env_state)
  : list Q * env_state :=
  match t with
  | [] => ([], s)
  | EnvReset :: t' => rewards_from random t' (snd (env_reset s))
  | EnvStep a _ :: t' =>
      let s1 := if random then snd (action_space_sample s) else s in
      let rest := rewards_from random t' (snd (env_step a s1)) in
      (snd (fst (fst (env_step a s1))) :: fst rest, snd rest)
  | EnvRender :: t' => rewards_from random t' (env_render s)
  end.

End Replay.

Section Persist.
Context `{GymEnv} `{Agent} `{RandomProcess} `{Optimizer}.

(** What [evaluate] never touches: the part of the world besides the
    environment, the memory and the noise process. *)
Definition rest_of (w : world)
  : agent_state * es_state * list call * gmap string (list row)
    * gmap string (list tensor) :=
  (agent w, es w, calls w, pickles w, checkpoints w).

(** [RLNN.save_model(output, net_name)]: [torch.save] of the state dict
    under ['{}/{}.pkl'.format(output, net_name)]. *)
Definition save_model (actor : actor_net) (output net_name : string)
  : M unit := fun w =>
  (Ok tt,
   World (w_env w) (memory w) (a_noise w) (agent w) (es w) (env_log w)
     (calls w) (pickles w)
     (<[output +:+ "/" +:+ net_name +:+ ".pkl" := parameters actor]>
        (checkpoints w))).

End Persist.

End More.

(** * A further stub world *)

Module StubMore.
Import Models Ges Stub.

(** An environment with episodes of [horizon] steps whose step number
    [k] (from 1) pays the reward [k]. *)
Definition ramp_env (horizon : nat) : GymEnv := {|
  env_state := nat;
  gym_make := fun _ => 0;
  observation_space_shape0 := fun _ => 1;
  action_space_shape0 := fun _ => 1;
  action_space_high0 := fun _ => 1%Q;
  action_space_sample := fun t => ([1%Q], t);
  env_reset := fun _ => ([0%Q], 0);
  env_step := fun _ t =>
    ([inject_Z (Z.of_nat (S t))], inject_Z (Z.of_nat (S t)),
     horizon <=? S t, S t);
  env_render := fun t => t;
  env_seed := fun _ t => t
|}.

Definition ramp_world : world (H := ramp_env 3) :=
  World (H := ramp_env 3) 0 [] tt tt [0%Q; 0%Q] [] [] ∅ ∅.

(** The objects of [stub_world] around an optimizer whose mean has one
    entry, one fewer than the stub actor has parameters. *)
Definition short_world : world (H := stub_env 5 1) :=
  World (H := stub_env 5 1) 0 [] tt tt [0%Q] [] [] ∅ ∅.

End StubMore.

(** * Properties of models.py *)

Module ModelsFacts.
Import Models Vocab.

Lemma scalar_entry_same p input :
  tsize input = tsize p -> scalar_entry p input = Ok input.
Proof.
  intros E. unfold scalar_entry. rewrite E.
  destruct (tsize p) as [|? [|? ?]]; reflexivity.
Qed.

Lemma scalar_entry_ranked p input :
  tsize p <> [] -> scalar_entry p input = Ok input.
Proof.
  intros Hp. unfold scalar_entry.
  destruct (tsize p) as [|? ?]; [congruence | reflexivity].
Qed.

Lemma load_tensors_same own :
  forall sd,
    map tsize sd = map tsize own -> load_tensors own sd = (Ok true, sd).
Proof.
  induction own as [|p own IH]; intros [|[sz d] sd] E; try discriminate;
    [reflexivity|].
  simpl in E. injection E as Ep E. simpl.
  rewrite scalar_entry_same by exact Ep. rewrite (IH sd E).
  rewrite bool_decide_eq_true_2 by exact Ep.
  unfold copy_. simpl. rewrite Ep. reflexivity.
Qed.

Lemma load_tensors_ranked own :
  forall sd, ranked own -> exists b, fst (load_tensors own sd) = Ok b.
Proof.
  induction own as [|p own IH]; intros [|s sd] Hr; simpl; eauto.
  inversion Hr as [|? ? Hp Hrest]; subst.
  rewrite scalar_entry_ranked by exact Hp.
  destruct (IH sd Hrest) as [b Hb].
  destruct (load_tensors own sd) as [r rest]. simpl in Hb. subst r.
  destruct (bool_decide _); simpl; eauto.
Qed.

Lemma load_tensors_other own :
  forall sd,
    ranked own -> map tsize sd <> map tsize own ->
    fst (load_tensors own sd) = Ok false.
Proof.
  induction own as [|p own IH]; intros [|s sd] Hr E; simpl;
    try reflexivity; [congruence|].
  inversion Hr as [|? ? Hp Hrest]; subst.
  rewrite scalar_entry_ranked by exact Hp.
  destruct (load_tensors_ranked own sd Hrest) as [b Hb].
  specialize (IH sd Hrest).
  destruct (load_tensors own sd) as [r rest]. simpl in Hb, IH. subst r.
  destruct (bool_decide (tsize s = tsize p)) eqn:Eb; [|reflexivity].
  apply bool_decide_eq_true_1 in Eb. simpl. apply IH.
  intros Es. apply E. simpl. congruence.
Qed.

Lemma load_tensors_lookup own :
  forall sd i p,
    ranked own -> own !! i = Some p ->
    snd (load_tensors own sd) !! i =
      Some (match sd !! i with
            | Some s => if bool_decide (tsize s = tsize p) then s else p
            | None => p
            end).
Proof.
  induction own as [|q own IH]; intros sd i p Hr Hi; [discriminate|].
  inversion Hr as [|? ? Hq Hrest]; subst.
  destruct sd as [|[sz d] sd]; [exact Hi|]. simpl.
  rewrite scalar_entry_ranked by exact Hq.
  destruct (load_tensors own sd) as [r rest] eqn:El.
  specialize (IH sd). rewrite El in IH. simpl in IH.
  destruct i as [|i]; simpl in *.
  - injection Hi as ->.
    destruct (bool_decide (sz = tsize p)) eqn:Eb; [|reflexivity].
    apply bool_decide_eq_true_1 in Eb. unfold copy_. simpl.
    rewrite Eb. reflexivity.
  - destruct (bool_decide (sz = tsize q)); simpl; apply IH; assumption.
Qed.

Lemma load_state_dict_same own sd :
  map tsize sd = map tsize own -> load_state_dict own sd = (Ok tt, sd).
Proof.
  intros E. unfold load_state_dict. rewrite (load_tensors_same own sd E).
  reflexivity.
Qed.

Lemma load_state_dict_other own sd :
  ranked own -> map tsize sd <> map tsize own ->
  load_state_dict own sd =
    (Raise (RuntimeError "Error(s) in loading state_dict"),
     snd (load_tensors own sd)).
Proof.
  intros Hr E. unfold load_state_dict.
  pose proof (load_tensors_other own sd Hr E) as Hf.
  destruct (load_tensors own sd) as [r ps]. simpl in Hf. subst r.
  reflexivity.
Qed.

Lemma count_cons p ps : count (p :: ps) = prod_list (tsize p) + count ps.
Proof. reflexivity. Qed.

Lemma np_product_ranked sz : sz <> [] -> np_product sz = NpInt (prod_list sz).
Proof. destruct sz; [congruence | reflexivity]. Qed.

Lemma py_slice_take {A} (a : list A) lo n :
  py_slice a lo (lo + n) = take n (drop lo a).
Proof. unfold py_slice. f_equal. lia. Qed.

Lemma view_exact a sz :
  length a = prod_list sz -> view a sz = Ok (Tensor sz a).
Proof. intros E. unfold view. rewrite E, Nat.eqb_refl. reflexivity. Qed.

Lemma view_mismatch a sz :
  length a <> prod_list sz ->
  view a sz = Raise (RuntimeError "shape is invalid for input size").
Proof.
  intros E. unfold view.
  destruct (Nat.eqb_spec (length a) (prod_list sz)); [contradiction | easy].
Qed.

Lemma set_params_from_fill v ps : forall cpt,
  ranked ps -> cpt + count ps <= length v ->
  set_params_from v cpt ps = (Ok tt, fill v cpt ps).
Proof.
  induction ps as [|p rest IH]; intros cpt Hr Hlen; [reflexivity|].
  inversion Hr as [|? ? Hp Hrest]; subst.
  rewrite count_cons in Hlen.
  simpl. rewrite (np_product_ranked _ Hp), py_slice_take.
  rewrite view_exact.
  - rewrite IH.
    + reflexivity.
    + trivial.
    + lia.
  - rewrite length_take, length_drop. lia.
Qed.

Lemma set_params_from_short v ps : forall cpt,
  ranked ps -> cpt <= length v -> length v < cpt + count ps ->
  exists ps',
    set_params_from v cpt ps =
      (Raise (RuntimeError "shape is invalid for input size"), ps').
Proof.
  induction ps as [|p rest IH]; intros cpt Hr Hcpt Hlen.
  - unfold count in Hlen. simpl in Hlen. lia.
  - inversion Hr as [|? ? Hp Hrest]; subst.
    rewrite count_cons in Hlen.
    simpl. rewrite (np_product_ranked _ Hp), py_slice_take.
    destruct (le_lt_dec (cpt + prod_list (tsize p)) (length v)) as [Hfit|Hcut].
    + rewrite view_exact by (rewrite length_take, length_drop; lia).
      destruct (IH (cpt + prod_list (tsize p)) Hrest) as [ps' E];
        [lia | lia |].
      rewrite E. eauto.
    + rewrite view_mismatch by (rewrite length_take, length_drop; lia).
      eauto.
Qed.

Lemma fill_length v ps : forall cpt, length (fill v cpt ps) = length ps.
Proof. induction ps; intros; simpl; auto. Qed.

Lemma fill_lookup v ps : forall cpt i t,
  ps !! i = Some t ->
  fill v cpt ps !! i =
    Some (Tensor (tsize t) (take (numel t) (drop (cpt + offset ps i) v))).
Proof.
  induction ps as [|p rest IH]; intros cpt i t Hi; [easy|].
  destruct i as [|i]; simpl in *.
  - inversion Hi; subst. unfold offset, count. simpl.
    rewrite Nat.add_0_r. reflexivity.
  - rewrite (IH _ _ _ Hi). unfold offset, count. simpl.
    rewrite Nat.add_assoc. reflexivity.
Qed.

Lemma fill_own_data ps post : forall pre,
  Forall tensor_ok ps ->
  fill (pre ++ concat (map tdata ps) ++ post) (length pre) ps = ps.
Proof.
  induction ps as [|p rest IH]; intros pre Hok; [reflexivity|].
  inversion Hok as [|? ? Hp Hrest]; subst. simpl.
  rewrite drop_app_length, <- app_assoc, <- Hp, take_app_length.
  f_equal; [destruct p; reflexivity|].
  specialize (IH (pre ++ tdata p) Hrest).
  rewrite length_app, <- app_assoc in IH. exact IH.
Qed.

Lemma count_concat ps :
  Forall tensor_ok ps -> length (concat (map tdata ps)) = count ps.
Proof.
  induction 1 as [|p rest Hp _ IH]; [reflexivity|].
  unfold count in *. simpl. rewrite length_app, IH, Hp. reflexivity.
Qed.

Lemma get_size_count ps :
  ps <> [] -> Forall tensor_ok ps -> get_size ps = Ok (count ps).
Proof.
  intros Hne Hok. unfold get_size, get_params.
  destruct ps; [congruence|]. rewrite count_concat by trivial. reflexivity.
Qed.

(** Every class of models.py is made of [Linear] and [LayerNorm] layers,
    so it has at least one tensor and none of rank 0. *)
Lemma arch_sizes_ranked a sd ad :
  Forall (fun sz => sz <> []) (arch_sizes a sd ad) /\ arch_sizes a sd ad <> [].
Proof.
  split.
  - unfold arch_sizes.
    assert (HL : forall l,
               Forall (fun sz : list nat => sz <> []) (layer_sizes l))
      by (intros [? ?|?]; repeat constructor; discriminate).
    induction (layers a sd ad) as [|l ls IH]; simpl; [constructor|].
    apply Forall_app; auto.
  - destruct a as [| | |[]|[]|[]]; discriminate.
Qed.

Lemma params_of_ranked a sd ad ps :
  params_of a sd ad ps -> ranked ps /\ ps <> [] /\ Forall tensor_ok ps.
Proof.
  intros [Hsz Hok]. destruct (arch_sizes_ranked a sd ad) as [Hr Hne].
  rewrite <- Hsz in Hr, Hne. repeat split; trivial.
  - unfold ranked. clear -Hr. induction ps; simpl in *; [constructor|].
    inversion Hr; subst. constructor; auto.
  - intros ->. apply Hne. reflexivity.
Qed.


(** Loading a network's own flattened parameters, followed by any surplus
    entries, leaves every tensor as it was. *)
Lemma set_params_own_data ps post :
  ranked ps -> Forall tensor_ok ps ->
  set_params (concat (map tdata ps) ++ post) ps = (Ok tt, ps).
Proof.
  intros Hr Hok. unfold set_params. rewrite set_params_from_fill; trivial.
  - f_equal. apply (fill_own_data ps post [] Hok).
  - rewrite length_app, count_concat by trivial. lia.
Qed.

Lemma zeros_sizes sizes : map tsize (Stub.zeros sizes) = sizes.
Proof. induction sizes; simpl; congruence. Qed.

Lemma zeros_ok sizes : Forall tensor_ok (Stub.zeros sizes).
Proof.
  induction sizes; constructor; trivial.
  unfold tensor_ok. simpl. apply repeat_length.
Qed.

Lemma zeros_params_of a sd ad :
  params_of a sd ad (Stub.zeros (arch_sizes a sd ad)).
Proof. split; [apply zeros_sizes | apply zeros_ok]. Qed.

(** C4 (as amended).  For a network of any of the six classes, with
    parameter count [n]: [set_params] raises when the vector is shorter
    than [n]; when the vector has at least [n] entries it returns normally
    and tensor number [i], in declaration order, keeps its size and holds
    the contiguous slice of the vector that starts after the entries of
    the tensors before it. *)
Theorem set_params_by_length (a : arch) (sd ad : nat) (ps : list tensor)
  (v : list Q) :
  params_of a sd ad ps ->
  exists n, get_size ps = Ok n /\
    (length v < n ->
     exists ps',
       set_params v ps =
         (Raise (RuntimeError "shape is invalid for input size"), ps')) /\
    (n <= length v ->
     exists ps',
       set_params v ps = (Ok tt, ps') /\
       length ps' = length ps /\
       forall i t, ps !! i = Some t ->
         ps' !! i =
           Some (Tensor (tsize t) (take (numel t) (drop (offset ps i) v)))).
Proof.
  intros Hps. destruct (params_of_ranked _ _ _ _ Hps) as (Hr & Hne & Hok).
  exists (count ps). split; [apply get_size_count; trivial|]. split.
  - intros Hshort. apply set_params_from_short; trivial; lia.
  - intros Hlong. exists (fill v 0 ps). split; [|split].
    + apply set_params_from_fill; trivial.
    + apply fill_length.
    + intros i t Hi. apply (fill_lookup v ps 0 i t Hi).
Qed.

Lemma set_params_by_length_witness :
  params_of ActorERL 1 1 (Stub.zeros (arch_sizes ActorERL 1 1)) /\
  exists n, get_size (Stub.zeros (arch_sizes ActorERL 1 1)) = Ok n /\
    (length [1%Q] < n ->
     exists ps',
       set_params [1%Q] (Stub.zeros (arch_sizes ActorERL 1 1)) =
         (Raise (RuntimeError "shape is invalid for input size"), ps')) /\
    (n <= length [1%Q] ->
     exists ps',
       set_params [1%Q] (Stub.zeros (arch_sizes ActorERL 1 1)) =
         (Ok tt, ps') /\
       length ps' = length (Stub.zeros (arch_sizes ActorERL 1 1)) /\
       forall i t, Stub.zeros (arch_sizes ActorERL 1 1) !! i = Some t ->
         ps' !! i =
           Some (Tensor (tsize t)
                   (take (numel t)
                      (drop (offset (Stub.zeros (arch_sizes ActorERL 1 1)) i)
                         [1%Q])))).
Proof.
  split.
  - split; [apply zeros_sizes | apply zeros_ok].
  - apply (set_params_by_length ActorERL 1 1).
    split; [apply zeros_sizes | apply zeros_ok].
Defined.

(** C4 (as stated) fails: an [ActorERL] for a 1-dimensional state and
    action accepts its own parameter vector with one more entry appended,
    although the length then differs from the parameter count. *)
Lemma set_params_accepts_longer_vector :
  let ps := Stub.zeros (arch_sizes ActorERL 1 1) in
  let v := concat (map tdata ps) ++ [1%Q] in
  params_of ActorERL 1 1 ps /\
  get_size ps = Ok (count ps) /\
  length v <> count ps /\
  set_params v ps = (Ok tt, ps).
Proof.
  cbv zeta. pose proof (zeros_params_of ActorERL 1 1) as Hps.
  destruct (params_of_ranked _ _ _ _ Hps) as (Hr & Hne & Hok).
  split; [exact Hps|]. split; [apply get_size_count; trivial|]. split.
  - rewrite length_app, count_concat by trivial.
    change (length [1%Q]) with 1. lia.
  - apply set_params_own_data; trivial.
Qed.

(** The same on the smallest network, a single [nn.Linear(1, 1)]. *)
Example set_params_linear11 :
  get_size Stub.linear11 = Ok 2 /\
  set_params [1; 2; 3]%Q Stub.linear11 =
    (Ok tt, [Tensor [1; 1] [1%Q]; Tensor [1] [2%Q]]).
Proof. split; reflexivity. Qed.

(** C5.  For a network of any of the six classes in any parameter state,
    [get_params] returns a vector, [set_params] of that vector returns
    normally and leaves every learnable tensor as it was; hence the output
    on any input batch is the same after the round trip. *)
Theorem set_get_params_roundtrip
  (body : arch -> list tensor -> list (list Q) -> list (list Q))
  (a : arch) (sd ad : nat) (max_action : Z) (ps : list tensor) :
  params_of a sd ad ps ->
  exists v ps',
    get_params ps = Ok v /\
    set_params v ps = (Ok tt, ps') /\
    ps' = ps /\
    forall x, forward body a max_action ps' x = forward body a max_action ps x.
Proof.
  intros Hps. destruct (params_of_ranked _ _ _ _ Hps) as (Hr & Hne & Hok).
  exists (concat (map tdata ps)), ps. split; [|split; [|split; trivial]].
  - destruct ps; [congruence | reflexivity].
  - rewrite <- (app_nil_r (concat _)). apply set_params_own_data; trivial.
Qed.

Lemma set_get_params_roundtrip_witness :
  params_of (Critic true) 3 2 (Stub.zeros (arch_sizes (Critic true) 3 2)) /\
  exists v ps',
    get_params (Stub.zeros (arch_sizes (Critic true) 3 2)) = Ok v /\
    set_params v (Stub.zeros (arch_sizes (Critic true) 3 2)) = (Ok tt, ps') /\
    ps' = Stub.zeros (arch_sizes (Critic true) 3 2) /\
    forall x,
      forward Stub.stub_body (Critic true) 1 ps' x =
      forward Stub.stub_body (Critic true) 1
        (Stub.zeros (arch_sizes (Critic true) 3 2)) x.
Proof.
  split.
  - split; [apply zeros_sizes | apply zeros_ok].
  - apply (set_get_params_roundtrip Stub.stub_body (Critic true) 3 2).
    split; [apply zeros_sizes | apply zeros_ok].
Defined.

End ModelsFacts.

(** * Properties of ges.py *)

Module GesFacts.
Import Models Ges Vocab.

(** ** Rules for triples *)

Section Triples.
Context `{GymEnv} `{Agent} `{RandomProcess} `{Optimizer}.

Lemma grows_refl {E} (log : world -> list E) p w : grows log p w w.
Proof. exists []. rewrite app_nil_r. auto. Qed.

Lemma grows_trans {E} (log : world -> list E) p w1 w2 w3 :
  grows log p w1 w2 -> grows log p w2 w3 -> grows log p w1 w3.
Proof.
  intros (t1 & E1 & F1) (t2 & E2 & F2). exists (t1 ++ t2).
  rewrite E2, E1, app_assoc. split; [reflexivity | apply Forall_app; auto].
Qed.

Lemma grows_same {E} (log : world -> list E) p w w' :
  log w' = log w -> grows log p w w'.
Proof. intros E0. exists []. rewrite app_nil_r. auto. Qed.

Lemma grows_one {E} (log : world -> list E) (p : E -> Prop) w w' e :
  log w' = log w ++ [e] -> p e -> grows log p w w'.
Proof. intros E0 He. exists [e]. auto. Qed.

Lemma keeps_trans {X} (f : world -> X) w1 w2 w3 :
  keeps f w1 w2 -> keeps f w2 w3 -> keeps f w1 w3.
Proof. unfold keeps. congruence. Qed.

Section Rules.
Variable R : world -> world -> Prop.
Hypothesis R_refl : forall w, R w w.
Hypothesis R_trans : forall w1 w2 w3, R w1 w2 -> R w2 w3 -> R w1 w3.

Lemma triple_ret {A} (a : A) (Q : A -> Prop) : Q a -> triple R (ret a) Q.
Proof.
  intros Ha w r w' E. inversion E; subst. split; [apply R_refl|].
  intros ? [= <-]. exact Ha.
Qed.

(** A computation that leaves the world alone. *)
Lemma triple_pure {A} (m : M A) :
  (forall w, snd (m w) = w) -> triple R m any.
Proof.
  intros Hm w r w' E. specialize (Hm w). rewrite E in Hm. simpl in Hm.
  subst. split; [apply R_refl | easy].
Qed.

Lemma triple_bind {A B} (m : M A) (k : A -> M B) (Q : A -> Prop)
  (Q' : B -> Prop) :
  triple R m Q -> (forall a, Q a -> triple R (k a) Q') ->
  triple R (bind m k) Q'.
Proof.
  intros Hm Hk w r w' E. unfold bind in E.
  destruct (m w) as [[a|e|] w1] eqn:Em; destruct (Hm _ _ _ Em) as [HR Hq].
  - destruct (Hk a (Hq a eq_refl) _ _ _ E) as [HR' Hq'].
    split; [eapply R_trans; eauto | exact Hq'].
  - inversion E; subst. split; [exact HR | discriminate].
  - inversion E; subst. split; [exact HR | discriminate].
Qed.

Lemma triple_when (b : bool) (m : M unit) :
  triple R m any -> triple R (when b m) any.
Proof.
  intros Hm. destruct b; [exact Hm|]. apply triple_ret. exact I.
Qed.

(** *** The loops of [evaluate], [train_es] and [train], from the calls
    they make *)

Variable body : arch -> list tensor -> list (list Q) -> list (list Q).
Variable g : globals.
Variable random : bool.
Variable good : action -> Prop.

Hypothesis reset_R : triple R reset_env any.
Hypothesis step_R : forall a, good a -> triple R (step_env a) any.
Hypothesis render_R : triple R render_env any.
Hypothesis memory_add_R : forall tr, triple R (memory_add tr) any.
Hypothesis print_R : forall f, triple R (log_call (PrLightPurple f)) any.

Section Evaluate.
Variable noise : noise_arg.
Hypothesis policy_R :
  forall actor state, triple R (policy body g actor random noise state) good.

Lemma episode_triple fuel actor render add_memory :
  forall obs0 score steps,
    triple R
      (episode body fuel g actor random noise render add_memory obs0 score
         steps) any.
Proof.
  induction fuel as [|fuel IH]; intros obs0 score steps; simpl.
  - apply triple_pure. reflexivity.
  - apply (triple_bind _ _ good); [apply policy_R|].
    intros a Ha. apply (triple_bind _ _ any); [apply step_R, Ha|].
    intros [[n_obs reward] done] _.
    apply (triple_bind _ _ any); [apply triple_when, memory_add_R|].
    intros _ _.
    apply (triple_bind _ _ any); [apply triple_when, render_R|].
    intros _ _.
    apply (triple_bind _ _ any).
    { apply triple_when, (triple_bind _ _ any); [apply reset_R|].
      intros. apply triple_ret. exact I. }
    intros _ _. destruct done; [apply triple_ret; exact I | apply IH].
Qed.

Lemma episodes_triple fuel actor render add_memory todo :
  forall scores steps,
    triple R
      (episodes body fuel g actor random noise render add_memory todo
         scores steps) any.
Proof.
  induction todo as [|todo IH]; intros scores steps; simpl.
  - apply triple_ret. exact I.
  - apply (triple_bind _ _ any); [apply reset_R|]. intros obs0 _.
    apply (triple_bind _ _ any); [apply episode_triple|].
    intros [score steps'] _. apply IH.
Qed.

Lemma evaluate_triple fuel actor n_episodes render add_memory :
  triple R
    (evaluate body fuel g actor n_episodes random noise render add_memory)
    any.
Proof.
  unfold evaluate.
  apply (triple_bind _ _ any); [apply episodes_triple|].
  intros [scores steps] _. apply triple_ret. exact I.
Qed.
End Evaluate.

(** When the policy never returns an action, no episode is completed. *)
Section NoAction.
Variable noise : noise_arg.
Hypothesis policy_R :
  forall actor state, triple R (policy body g actor random noise state) good.
Hypothesis no_good : forall a, ~ good a.

Lemma episode_fails fuel actor render add_memory obs0 score steps :
  triple R
    (episode body fuel g actor random noise render add_memory obs0 score
       steps) (fun _ => False).
Proof.
  destruct fuel as [|fuel]; simpl.
  - intros w r w' E. inversion E; subst. split; [apply R_refl | discriminate].
  - apply (triple_bind _ _ good); [apply policy_R|].
    intros a Ha. destruct (no_good a Ha).
Qed.

Lemma evaluate_fails fuel actor n_episodes render add_memory :
  (0 < n_episodes)%Z ->
  triple R
    (evaluate body fuel g actor n_episodes random noise render add_memory)
    (fun _ => False).
Proof.
  intros Hn. unfold evaluate.
  destruct (Z.to_nat n_episodes) as [|todo] eqn:En; [lia|]. simpl.
  apply (triple_bind _ _ (fun _ => False)); [|tauto].
  apply (triple_bind _ _ any); [apply reset_R|]. intros obs0 _.
  apply (triple_bind _ _ (fun _ => False)); [|tauto].
  apply episode_fails.
Qed.
End NoAction.

(** [train_es] never returns normally: the lookup of [actor_grad] raises. *)
Section TrainEs.
Variable actor_init : nat -> nat -> list tensor.
Hypothesis policy_R :
  forall actor state,
    triple R (policy body g actor random NoiseNone state) good.
Hypothesis ask_R : triple R ask any.
Hypothesis tell_R : forall fitness pop, triple R (tell fitness pop) any.

Lemma population_triple fuel n_episodes debug render pop :
  forall actor batch_steps fitness f,
    triple R
      (population body fuel g n_episodes debug render random pop actor
         batch_steps fitness f) any.
Proof.
  induction pop as [|actor_params rest IH]; intros; simpl.
  - apply triple_ret. exact I.
  - apply (triple_bind _ _ any); [apply triple_pure; reflexivity|].
    intros actor' _.
    apply (triple_bind _ _ any); [apply evaluate_triple, policy_R|].
    intros [f' steps] _.
    apply (triple_bind _ _ any); [apply triple_when, print_R|].
    intros _ _. apply IH.
Qed.

Lemma actor_grad_missing :
  actor_getattr "actor_grad" =
    Raise (AttributeError "'ActorERL' object has no attribute 'actor_grad'").
Proof. vm_compute. reflexivity. Qed.

Lemma train_actor_found : actor_getattr "train_actor" = Ok M_train_actor.
Proof. vm_compute. reflexivity. Qed.

Lemma train_es_triple fuel n_episodes debug render :
  triple R (train_es body actor_init fuel g n_episodes debug render random)
    (fun _ => False).
Proof.
  unfold train_es.
  apply (triple_bind _ _ any); [apply ask_R|]. intros pop _.
  apply (triple_bind _ _ any); [apply population_triple|].
  intros [[[actor batch_steps] fitness] f] _.
  apply (triple_bind _ _ any); [apply tell_R|]. intros _ _.
  apply (triple_bind _ _ any); [apply triple_pure; reflexivity|].
  intros es_mu _.
  apply (triple_bind _ _ any); [apply triple_pure; reflexivity|].
  intros actor' _.
  apply (triple_bind _ _ (fun _ => False)); [|tauto].
  rewrite actor_grad_missing. intros w r w' E. inversion E; subst.
  split; [apply R_refl | discriminate].
Qed.
End TrainEs.

End Rules.

(** *** What each call does to the logs and to the pickles *)

Lemma reset_env_log w r w' :
  reset_env w = (r, w') ->
  env_log w' = env_log w ++ [EnvReset] /\ calls w' = calls w /\
  pickles w' = pickles w.
Proof. unfold reset_env. intros E. run_call E. auto. Qed.

Lemma step_env_log a w r w' :
  step_env a w = (r, w') ->
  (exists d, env_log w' = env_log w ++ [EnvStep a d]) /\
  calls w' = calls w /\ pickles w' = pickles w.
Proof. unfold step_env. intros E. run_call E. simpl. eauto. Qed.

Lemma render_env_log w r w' :
  render_env w = (r, w') ->
  env_log w' = env_log w ++ [EnvRender] /\ calls w' = calls w /\
  pickles w' = pickles w.
Proof. unfold render_env. intros E. run_call E. auto. Qed.

Lemma memory_add_log tr w r w' :
  memory_add tr w = (r, w') ->
  env_log w' = env_log w /\ calls w' = calls w /\ pickles w' = pickles w.
Proof. unfold memory_add. intros E. run_call E. auto. Qed.

Lemma log_call_log c w r w' :
  log_call c w = (r, w') ->
  env_log w' = env_log w /\ calls w' = calls w ++ [c] /\
  pickles w' = pickles w.
Proof. unfold log_call. intros E. run_call E. auto. Qed.

Lemma ask_log w r w' :
  ask w = (r, w') ->
  env_log w' = env_log w /\ calls w' = calls w ++ [EsAsk] /\
  pickles w' = pickles w.
Proof. unfold ask. intros E. run_call E. auto. Qed.

Lemma tell_log fitness pop w r w' :
  tell fitness pop w = (r, w') ->
  env_log w' = env_log w /\ calls w' = calls w ++ [EsTell fitness pop] /\
  pickles w' = pickles w.
Proof. unfold tell. intros E. run_call E. auto. Qed.

Lemma policy_log body g actor random noise state w r w' :
  policy body g actor random noise state w = (r, w') ->
  env_log w' = env_log w /\ calls w' = calls w /\ pickles w' = pickles w.
Proof.
  unfold policy, bind, ret, raise, lift, sample_noise, sample_action.
  intros E. destruct random, noise; simpl in E; run_calls; auto.
Qed.

Lemma policy_clipped body g actor noise state w a w' :
  policy body g actor false noise state w = (Ok a, w') ->
  exists raw,
    a = np_clip raw (inject_Z (- max_action g)) (inject_Z (max_action g)).
Proof.
  unfold policy, bind, ret, raise, lift, sample_noise.
  intros E. destruct noise; simpl in E; run_calls; eauto.
Qed.

Lemma policy_bool_raises body g actor b state w :
  policy body g actor false (NoiseBool b) state w =
    (Raise (AttributeError "'bool' object has no attribute 'sample'"), w).
Proof. reflexivity. Qed.

Lemma triple_any {A} (R : world -> world -> Prop) (m : M A) :
  (forall w r w', m w = (r, w') -> R w w') -> triple R m any.
Proof. intros Hm w r w' E. split; [eauto | easy]. Qed.

(** *** [train_es]: no call of [es.add], no pickle written *)

Lemma train_es_no_add body actor_init fuel g n_episodes debug render random :
  triple (grows calls not_add)
    (train_es body actor_init fuel g n_episodes debug render random)
    (fun _ => False).
Proof.
  apply train_es_triple with (good := any);
    try (intros; apply triple_any; intros w r w' E).
  - apply grows_refl.
  - apply grows_trans.
  - apply grows_same, (reset_env_log _ _ _ E).
  - apply grows_same, (step_env_log _ _ _ _ E).
  - apply grows_same, (render_env_log _ _ _ E).
  - apply grows_same, (memory_add_log _ _ _ _ E).
  - eapply grows_one; [apply (log_call_log _ _ _ _ E) | exact I].
  - apply grows_same, (policy_log _ _ _ _ _ _ _ _ _ E).
  - eapply grows_one; [apply (ask_log _ _ _ E) | exact I].
  - eapply grows_one; [apply (tell_log _ _ _ _ _ E) | exact I].
Qed.

Lemma train_es_keeps_pickles body actor_init fuel g n_episodes debug render
  random :
  triple (keeps pickles)
    (train_es body actor_init fuel g n_episodes debug render random)
    (fun _ => False).
Proof.
  apply train_es_triple with (good := any);
    try (intros; apply triple_any; intros w r w' E); unfold keeps.
  - reflexivity.
  - congruence.
  - apply (reset_env_log _ _ _ E).
  - apply (step_env_log _ _ _ _ E).
  - apply (render_env_log _ _ _ E).
  - apply (memory_add_log _ _ _ _ E).
  - apply (log_call_log _ _ _ _ E).
  - apply (policy_log _ _ _ _ _ _ _ _ _ E).
  - apply (ask_log _ _ _ E).
  - apply (tell_log _ _ _ _ _ E).
Qed.

Lemma triple_never {A} (R : world -> world -> Prop) (m : M A) w :
  triple R m (fun _ => False) ->
  is_ok (fst (m w)) = false /\ R w (snd (m w)).
Proof.
  intros Hm. destruct (m w) as [r w'] eqn:E. destruct (Hm _ _ _ E) as [HR Hq].
  split; [|exact HR]. destruct r; trivial. destruct (Hq a eq_refl).
Qed.

(** C2 (code defect).  Whatever the population, the optimizer state and
    the fuel, [train_es] does not return normally and [es.add] is not among
    the calls it makes: the gradient is asked from [actor.actor_grad], a
    name that neither [ActorERL] nor [RLNN] defines ([RLNN] has
    [train_actor]). *)
Theorem train_es_never_adds body actor_init fuel g n_episodes debug render
  random w :
  actor_getattr "actor_grad" =
    Raise (AttributeError "'ActorERL' object has no attribute 'actor_grad'")
  /\ is_ok
       (fst (train_es body actor_init fuel g n_episodes debug render random
               w)) = false
  /\ grows calls not_add w
       (snd (train_es body actor_init fuel g n_episodes debug render random
               w)).
Proof.
  split; [apply actor_grad_missing|]. apply triple_never, train_es_no_add.
Qed.

Lemma bind_ok {A B} (m : M A) (k : A -> M B) w b w' :
  bind m k w = (Ok b, w') ->
  exists a w1, m w = (Ok a, w1) /\ k a w1 = (Ok b, w').
Proof.
  unfold bind. destruct (m w) as [[a|e|] w1]; [eauto | discriminate..].
Qed.

Lemma train_rl_ok n_episodes n_steps debug render random w x w' :
  train_rl n_episodes n_steps debug render random w = (Ok x, w') ->
  x = (0, 0%Q) /\ pickles w' = pickles w.
Proof.
  unfold train_rl, bind, agent_train_critic, ret.
  destruct (train_critic n_steps (memory w) (agent w)); intros [= <- <-]; auto.
Qed.

(** The loop of [train] around any generation step that returns normally:
    after [S todo] generations the file holds the
    rows of the first [todo] of them only, and every row's [best_score] is
    the constant 0 returned by [train_rl]. *)
Lemma generations_log_lags
  (tes : Z -> bool -> bool -> bool -> M nat) g n_episodes output debug render :
  forall todo n total_steps df w w',
    generations tes g n_episodes output debug render (S todo) n total_steps
      df w = (Ok tt, w') ->
    exists rows,
      pickles w' !! (output +:+ "/log.pkl") = Some (df ++ rows) /\
      length rows = todo /\
      Forall (fun r => best_score r = 0%Q) rows.
Proof.
  induction todo as [|todo IH]; intros n total_steps df w w' E; simpl in E.
  - apply bind_ok in E as (steps_ea & w1 & E1 & E).
    apply bind_ok in E as ([steps_rl f] & w2 & E2 & E).
    apply bind_ok in E as ([] & w3 & E3 & E).
    apply bind_ok in E as ([] & w4 & E4 & E).
    apply bind_ok in E as ([] & w5 & E5 & E).
    inversion E; subst w'. clear E. exists []. rewrite app_nil_r.
    split; [|split; [reflexivity | constructor]].
    assert (Hsame : pickles w5 = pickles w4)
      by (destruct debug; simpl in E5; inversion E5; reflexivity).
    inversion E4; subst w4. simpl in *. rewrite Hsame.
    apply lookup_insert_eq.
  - apply bind_ok in E as (steps_ea & w1 & E1 & E).
    apply bind_ok in E as ([steps_rl f] & w2 & E2 & E).
    apply bind_ok in E as ([] & w3 & E3 & E).
    apply bind_ok in E as ([] & w4 & E4 & E).
    apply bind_ok in E as ([] & w5 & E5 & E).
    apply train_rl_ok in E2 as [[= -> ->] _].
    apply IH in E as (rows & Hfile & Hlen & Hzero).
    exists (Row (total_steps + (0 + steps_ea)) 0 :: rows).
    rewrite <- app_assoc in Hfile.
    split; [exact Hfile | split; [simpl; congruence | constructor; auto]].
Qed.

(** C1 (code defect).  For [n_gen >= 1]: (1) [train] does not return
    normally and leaves the pickled files as they were, because the first
    [train_es] raises before [to_pickle] is reached; (2) whatever is called
    as [train_es], if the loop of [train] completes its [n_gen] generations
    the persisted score log holds [n_gen - 1] rows, because each generation
    writes the log before it appends its own row, and every [best_score] in
    it is the constant 0 that [train_rl] returns. *)
Theorem train_log_defects body actor_init fuel g n_gen n_episodes omega
  output debug render w :
  (0 < n_gen)%Z ->
  (is_ok
     (fst (train body actor_init fuel g n_gen n_episodes omega output debug
             render w)) = false
   /\ pickles
        (snd (train body actor_init fuel g n_gen n_episodes omega output
                debug render w)) = pickles w)
  /\ forall tes w',
       generations tes g n_episodes output debug render (Z.to_nat n_gen) 0 0
         [] w = (Ok tt, w') ->
       exists rows,
         pickles w' !! (output +:+ "/log.pkl") = Some rows /\
         Z.of_nat (length rows) = (n_gen - 1)%Z /\
         Forall (fun r => best_score r = 0%Q) rows.
Proof.
  intros Hn. destruct (Z.to_nat n_gen) as [|todo] eqn:En; [lia|]. split.
  - unfold train. rewrite En. simpl.
    apply (triple_never (keeps pickles)).
    apply (triple_bind _ (keeps_trans pickles) _ _ (fun _ => False));
      [|tauto].
    apply train_es_keeps_pickles.
  - intros tes w' E. apply generations_log_lags in E as (rows & Hf & Hl & Hz).
    exists rows. split; [exact Hf | split; [lia | exact Hz]].
Qed.

Lemma load_model_pure actor filename net_name w :
  snd (load_model actor filename net_name w) = w.
Proof.
  unfold load_model, bind, torch_load, ret, raise, out_of_fuel.
  destruct filename as [dir|]; [|reflexivity].
  destruct (checkpoints w !! _) as [sd|]; [|reflexivity].
  destruct (actor_load_state_dict actor sd) as [[] ?]; reflexivity.
Qed.

Lemma test_triple body actor_init fuel g n_test filename debug render :
  (0 < n_test)%Z ->
  triple (grows env_log not_step)
    (test body actor_init fuel g n_test filename debug render)
    (fun _ => False).
Proof.
  intros Hn. unfold test.
  apply (triple_bind _ (grows_trans _ _) _ _ any).
  { apply triple_pure; [apply grows_refl | apply load_model_pure]. }
  intros actor _.
  apply (triple_bind _ (grows_trans _ _) _ _ (fun _ => False)); [|tauto].
  apply evaluate_fails with (good := fun _ => False); trivial.
  - apply grows_refl.
  - apply grows_trans.
  - apply triple_any. intros w r w' E.
    eapply grows_one; [apply (reset_env_log _ _ _ E) | exact I].
  - intros actor' state w r w' E. rewrite policy_bool_raises in E.
    inversion E; subst. split; [apply grows_refl | discriminate].
  - tauto.
Qed.

(** C3 (code defect).  For [n_test >= 1], [test] does not return normally
    and makes no [env.step] call; when the saved actor loads and the model
    follows at least one loop iteration, what it raises is the
    [AttributeError] of [noise.sample()] on [noise=False], at the first
    action of the first episode. *)
Theorem test_never_steps body actor_init fuel g n_test filename debug render
  w :
  (0 < n_test)%Z ->
  is_ok (fst (test body actor_init fuel g n_test filename debug render w))
    = false
  /\ grows env_log not_step w
       (snd (test body actor_init fuel g n_test filename debug render w))
  /\ forall sd,
       checkpoints w !! (filename +:+ "/" +:+ "actor" +:+ ".pkl") = Some sd ->
       map tsize sd = map tsize (actor_init (state_dim g) (action_dim g)) ->
       0 < fuel ->
       fst (test body actor_init fuel g n_test filename debug render w) =
         Raise (AttributeError "'bool' object has no attribute 'sample'").
Proof.
  intros Hn.
  destruct (triple_never _ _ w
              (test_triple body actor_init fuel g n_test filename debug
                 render Hn)) as [Hfail Hlog].
  split; [exact Hfail | split; [exact Hlog|]].
  - intros sd Hck Hsz Hfuel.
    unfold test, load_model, torch_load, bind. cbv beta iota. rewrite Hck.
    cbv beta iota. unfold actor_load_state_dict. cbn [parameters].
    rewrite (ModelsFacts.load_state_dict_same _ _ Hsz). unfold ret.
    cbv beta iota.
    unfold evaluate, bind.
    destruct (Z.to_nat n_test) as [|todo] eqn:En; [lia|].
    destruct fuel as [|fuel]; [lia|]. simpl.
    unfold reset_env, bind. destruct (env_reset (w_env w)). reflexivity.
Qed.

(** *** [evaluate]: the actions handed to [env.step] *)

Lemma evaluate_steps_clipped body fuel g actor n_episodes noise render
  add_memory :
  triple (grows env_log (steps_satisfy (clipped g)))
    (evaluate body fuel g actor n_episodes false noise render add_memory)
    any.
Proof.
  apply evaluate_triple with (good := clipped g);
    try (intros; apply triple_any; intros w r w' E).
  - apply grows_refl.
  - apply grows_trans.
  - eapply grows_one; [apply (reset_env_log _ _ _ E) | exact I].
  - destruct (step_env_log _ _ _ _ E) as [[d Hd] _].
    eapply grows_one; [exact Hd | assumption].
  - eapply grows_one; [apply (render_env_log _ _ _ E) | exact I].
  - apply grows_same, (memory_add_log _ _ _ _ E).
  - intros actor' state w r w' E. split.
    + apply grows_same, (policy_log _ _ _ _ _ _ _ _ _ E).
    + intros a ->. apply (policy_clipped _ _ _ _ _ _ _ _ E).
Qed.

Lemma clip1_within (m : Z) (x : Q) :
  (0 <= m)%Z ->
  (inject_Z (- m) <= clip1 (inject_Z (- m)) (inject_Z m) x /\
   clip1 (inject_Z (- m)) (inject_Z m) x <= inject_Z m)%Q.
Proof.
  intros Hm. unfold clip1. split; [|apply Q.le_min_r].
  apply Q.min_glb; [apply Q.le_max_r|]. rewrite <- Zle_Qle. lia.
Qed.

Lemma clipped_within g a :
  (0 <= max_action g)%Z -> clipped g a -> within (max_action g) a.
Proof.
  intros Hm [raw ->]. unfold within, np_clip.
  induction raw; simpl; constructor; auto using clip1_within.
Qed.

Lemma within_zero a : within 0 a -> all_zero a.
Proof.
  unfold within, all_zero. intros Hw. eapply Forall_impl; [exact Hw|].
  intros x [Hlo Hhi]. apply Qle_antisym; assumption.
Qed.

Lemma Forall_steps_impl (P P' : action -> Prop) (t : list env_event) :
  (forall a, P a -> P' a) ->
  Forall (steps_satisfy P) t -> Forall (steps_satisfy P') t.
Proof.
  intros HP Ht. eapply Forall_impl; [exact Ht|].
  intros [|a d|]; simpl; auto.
Qed.

Lemma evaluate_log_clipped body fuel g actor n_episodes noise render
  add_memory w :
  exists t,
    env_log
      (snd (evaluate body fuel g actor n_episodes false noise render
              add_memory w)) = env_log w ++ t /\
    Forall (steps_satisfy (clipped g)) t.
Proof.
  destruct (evaluate _ _ _ _ _ _ _ _ _ w) as [r w'] eqn:E.
  destruct (evaluate_steps_clipped _ _ _ _ _ _ _ _ _ _ _ E)
    as [(t & Ht & Hclip) _].
  exists t. auto.
Qed.

(** C9.  In [evaluate] with [random=False], whatever the outcome, every
    action handed to [env.step] is the result of
    [np.clip(_, -max_action, max_action)], taken after the noise was added;
    hence, [max_action] being a bound (not negative), every entry of it
    lies in [[-max_action, max_action]]. *)
Theorem evaluate_actions_clipped body fuel g actor n_episodes noise render
  add_memory w :
  exists t,
    env_log
      (snd (evaluate body fuel g actor n_episodes false noise render
              add_memory w)) = env_log w ++ t /\
    Forall (steps_satisfy (clipped g)) t /\
    ((0 <= max_action g)%Z ->
     Forall (steps_satisfy (within (max_action g))) t).
Proof.
  destruct (evaluate_log_clipped body fuel g actor n_episodes noise render
              add_memory w) as (t & Ht & Hclip).
  exists t. split; [exact Ht | split; [exact Hclip|]].
  intros Hm. revert Hclip. apply Forall_steps_impl.
  intros a. apply clipped_within, Hm.
Qed.

(** *** [evaluate]: resets and the [done] signal *)

Lemma step_env_ok a w o r d w' :
  step_env a w = (Ok (o, r, d), w') ->
  env_log w' = env_log w ++ [EnvStep a d].
Proof.
  unfold step_env. destruct (env_step a (w_env w)) as [[[o' r'] d'] s].
  intros [= <- <- <- <-]. reflexivity.
Qed.

Lemma when_log (b : bool) (m : M unit) e w w' :
  (forall w r w', m w = (r, w') -> env_log w' = env_log w ++ [e]) ->
  when b m w = (Ok tt, w') ->
  env_log w' = env_log w ++ (if b then [e] else []).
Proof.
  intros Hm E. destruct b; simpl in E.
  - apply (Hm _ _ _ E).
  - inversion E. rewrite app_nil_r. reflexivity.
Qed.

Lemma episode_calls body g actor random noise render add_memory fuel :
  forall obs0 score steps w res w',
    episode body fuel g actor random noise render add_memory obs0 score
      steps w = (Ok res, w') ->
    exists running last,
      env_log w' =
        env_log w
          ++ concat (map (fun a => step_events render a false) running)
          ++ step_events render last true ++ [EnvReset].
Proof.
  induction fuel as [|fuel IH]; intros obs0 score steps w res w' E;
    simpl in E; [discriminate|].
  apply bind_ok in E as (a & w1 & E1 & E).
  apply bind_ok in E as ([[n_obs reward] done] & w2 & E2 & E).
  apply bind_ok in E as ([] & w3 & E3 & E).
  apply bind_ok in E as ([] & w4 & E4 & E).
  apply bind_ok in E as ([] & w5 & E5 & E).
  apply policy_log in E1 as (L1 & _).
  apply step_env_ok in E2 as L2.
  assert (L3 : env_log w3 = env_log w2)
    by (destruct add_memory; simpl in E3; inversion E3; reflexivity).
  apply (when_log _ _ EnvRender) in E4 as L4;
    [|intros ? ? ? Er; apply (render_env_log _ _ _ Er)].
  apply (when_log _ _ EnvReset) in E5 as L5.
  2:{ intros w0 r0 w0' Er. unfold bind, reset_env in Er.
      destruct (env_reset (w_env w0)). inversion Er. reflexivity. }
  destruct done.
  - inversion E; subst. exists [], a. simpl.
    rewrite L5, L4, L3, L2, L1. unfold step_events.
    rewrite <- !app_assoc. reflexivity.
  - apply IH in E as (running & last & L6). exists (a :: running), last.
    rewrite L6, L5, L4, L3, L2, L1. simpl. unfold step_events at 2.
    rewrite app_nil_r, <- !app_assoc. reflexivity.
Qed.

Lemma episodes_calls body g actor random noise render add_memory fuel todo :
  forall scores steps w res w',
    episodes body fuel g actor random noise render add_memory todo scores
      steps w = (Ok res, w') ->
    exists t, env_log w' = env_log w ++ t /\ episodes_events render todo t.
Proof.
  induction todo as [|todo IH]; intros scores steps w res w' E; simpl in E.
  - inversion E. exists []. rewrite app_nil_r. split; [trivial | constructor].
  - apply bind_ok in E as (obs0 & w1 & E1 & E).
    apply bind_ok in E as ([score steps'] & w2 & E2 & E).
    apply reset_env_log in E1 as (L1 & _).
    apply episode_calls in E2 as (running & last & L2).
    apply IH in E as (t & L3 & Ht).
    exists (episode_events render running last ++ t). split.
    + rewrite L3, L2, L1. unfold episode_events. simpl.
      rewrite <- !app_assoc. reflexivity.
    + constructor. exact Ht.
Qed.

(** C8.  When [evaluate] returns, the calls it made on the environment
    are, for each of its [n_episodes] episodes in turn: a reset; the steps
    of the episode, of which the last one and only the last one reported
    [done]; and, right after that step (and its render), a second reset. *)
Theorem evaluate_double_reset body fuel g actor n_episodes random noise
  render add_memory w res w' :
  evaluate body fuel g actor n_episodes random noise render add_memory w =
    (Ok res, w') ->
  exists t,
    env_log w' = env_log w ++ t /\
    episodes_events render (Z.to_nat n_episodes) t.
Proof.
  unfold evaluate. intros E.
  apply bind_ok in E as ([scores steps] & w1 & E1 & E).
  inversion E; subst. apply (episodes_calls _ _ _ _ _ _ _ _ _ _ _ _ _ _ E1).
Qed.

(** *** [evaluate] returns when episodes are bounded

    [remaining] counts the steps an environment state is away from [done]
    at most; every reset leaves at most [k]. *)

Section Termination.
Variable body : arch -> list tensor -> list (list Q) -> list (list Q).
Variable remaining : env_state -> nat.
Variable k : nat.
Hypothesis reset_bound : forall s, remaining (snd (env_reset s)) <= k.
Hypothesis step_decreases :
  forall a s,
    snd (fst (env_step a s)) = false ->
    remaining (snd (env_step a s)) < remaining s.
Hypothesis sample_keeps :
  forall s, remaining (snd (action_space_sample s)) = remaining s.
Hypothesis render_keeps : forall s, remaining (env_render s) = remaining s.

Lemma policy_none_returns g actor random state w :
  exists a w1,
    policy body g actor random NoiseNone state w = (Ok a, w1) /\
    remaining (w_env w1) = remaining (w_env w).
Proof.
  unfold policy. destruct random; simpl.
  - unfold sample_action. specialize (sample_keeps (w_env w)).
    destruct (action_space_sample (w_env w)) as [a s]. eauto.
  - unfold bind, ret. eauto.
Qed.

Lemma step_env_returns a w :
  exists o r w1,
    step_env a w = (Ok (o, r, snd (fst (env_step a (w_env w)))), w1) /\
    w_env w1 = snd (env_step a (w_env w)).
Proof.
  unfold step_env. destruct (env_step a (w_env w)) as [[[o r] d] s].
  simpl. eauto.
Qed.

Lemma episode_returns g actor random render add_memory fuel :
  forall obs0 score steps w,
    remaining (w_env w) < fuel ->
    exists res w',
      episode body fuel g actor random NoiseNone render add_memory obs0
        score steps w = (Ok res, w').
Proof.
  induction fuel as [|fuel IH]; intros obs0 score steps w Hfuel; [lia|].
  simpl. unfold bind at 1.
  destruct (policy_none_returns g actor random obs0 w) as (a & w1 & -> & Hpol).
  unfold bind at 1.
  destruct (step_env_returns a w1) as (o & r & w2 & -> & Hstep).
  pose proof (step_decreases a (w_env w1)) as Hdec.
  destruct (snd (fst (env_step a (w_env w1)))) eqn:Hdone.
  - unfold bind, when, memory_add, render_env, reset_env, ret.
    destruct add_memory, render; simpl;
      match goal with
      | |- context [env_reset ?s] => destruct (env_reset s)
      end; eauto.
  - specialize (Hdec eq_refl).
    assert (Hlt : remaining (w_env w2) < fuel) by (rewrite Hstep; lia).
    unfold bind, when, memory_add, render_env, ret.
    destruct add_memory, render; simpl; apply IH; simpl;
      rewrite ?render_keeps; exact Hlt.
Qed.

Lemma episodes_return g actor random render add_memory fuel todo :
  k < fuel ->
  forall scores steps w,
    exists res w',
      episodes body fuel g actor random NoiseNone render add_memory todo
        scores steps w = (Ok res, w').
Proof.
  intros Hfuel. induction todo as [|todo IH]; intros scores steps w; simpl.
  - unfold ret. eauto.
  - unfold bind at 1, reset_env. pose proof (reset_bound (w_env w)) as Hk.
    destruct (env_reset (w_env w)) as [o s]. simpl in Hk.
    unfold bind at 1.
    match goal with
    | |- context [episode _ _ _ _ _ _ _ _ ?o0 ?sc ?st ?w0] =>
        destruct (episode_returns g actor random render add_memory fuel
                    o0 sc st w0) as ([score steps'] & w2 & ->);
          [simpl; lia|]
    end.
    apply IH.
Qed.

(** With more fuel than any episode has steps, and no noise, [evaluate]
    returns normally. *)
Lemma evaluate_returns fuel g actor n_episodes random render add_memory w :
  k < fuel ->
  exists res w',
    evaluate body fuel g actor n_episodes random NoiseNone render add_memory
      w = (Ok res, w').
Proof.
  intros Hfuel. unfold evaluate, bind.
  destruct (episodes_return g actor random render add_memory fuel
              (Z.to_nat n_episodes) Hfuel [] 0 w) as ([scores steps] & w' & ->).
  unfold ret. eauto.
Qed.
End Termination.

End Triples.

(** ** The [__main__] block *)

Section Main.
Context `{GymEnv} `{Agent} `{RandomProcess} `{Optimizer} `{Util}.

(** What [startup] leaves behind, read off its definition. *)
Lemma startup_ok a pk ck g w :
  startup a pk ck = Ok (g, w) ->
  max_action g = py_int (action_space_high0 (gym_make (env a))) /\
  args g = set_output a (get_output_folder (output a) (env a)) /\
  seed_sources (seed a) (gym_make (env a)) = (Ok tt, calls w, w_env w) /\
  env_log w = [].
Proof.
  unfold startup. cbv zeta.
  change (env (set_output a _)) with (env a).
  change (seed (set_output a _)) with (seed a).
  destruct (seed_sources (seed a) (gym_make (env a))) as [[[[]| |] seeds] e];
    try discriminate.
  repeat match goal with
         | |- context [match get_size ?x with _ => _ end] =>
             destruct (get_size x)
         | |- context [match get_params ?x with _ => _ end] =>
             destruct (get_params x)
         end; try discriminate.
  intros [= <- <-]. simpl. auto.
Qed.

Lemma np_random_seed_ok s :
  (0 <= s < 2 ^ 32)%Z -> np_random_seed s = Ok tt.
Proof.
  intros Hs. unfold np_random_seed.
  destruct (Z.leb_spec 0 s); [|lia].
  destruct (Z.ltb_spec s (2 ^ 32)); [reflexivity | lia].
Qed.

Lemma np_random_seed_large s :
  (2 ^ 32 <= s)%Z ->
  np_random_seed s =
    Raise (ValueError "Seed must be between 0 and 2**32 - 1").
Proof.
  intros Hs. unfold np_random_seed.
  destruct (Z.ltb_spec s (2 ^ 32)); [lia|]. rewrite andb_false_r.
  reflexivity.
Qed.

(** C6 (as amended).  The seeding step of [__main__] seeds the random
    sources exactly when [0 < seed < 2**32]: then numpy and the
    environment are seeded with that value, in this order.  For every
    seed <= 0 no seeding call is made and the environment is as
    [gym.make] returned it.  For every seed >= 2**32,
    [np.random.seed] raises [ValueError]: nothing is seeded, [env.seed]
    is not reached and the startup fails with that exception.  Hence
    objects that [startup] has built are seeded with a seed > 0 (which
    is then below 2**32) and unseeded with a seed <= 0. *)
Theorem seeding_iff_positive a pk ck :
  ((seed a <= 0)%Z ->
   seed_sources (seed a) (gym_make (env a)) =
     (Ok tt, [], gym_make (env a))) /\
  ((0 < seed a < 2 ^ 32)%Z ->
   seed_sources (seed a) (gym_make (env a)) =
     (Ok tt, [NpSeed (seed a); EnvSeed (seed a)],
      env_seed (seed a) (gym_make (env a)))) /\
  ((2 ^ 32 <= seed a)%Z ->
   seed_sources (seed a) (gym_make (env a)) =
     (Raise (ValueError "Seed must be between 0 and 2**32 - 1"), [],
      gym_make (env a)) /\
   startup a pk ck =
     Raise (ValueError "Seed must be between 0 and 2**32 - 1")) /\
  (forall g w,
     startup a pk ck = Ok (g, w) ->
     ((0 < seed a)%Z ->
      (seed a < 2 ^ 32)%Z /\
      calls w = [NpSeed (seed a); EnvSeed (seed a)] /\
      w_env w = env_seed (seed a) (gym_make (env a))) /\
     ((seed a <= 0)%Z -> calls w = [] /\ w_env w = gym_make (env a))).
Proof.
  assert (Hle : (seed a <= 0)%Z ->
                seed_sources (seed a) (gym_make (env a)) =
                  (Ok tt, [], gym_make (env a))).
  { intros Hs. unfold seed_sources.
    destruct (Z.gtb_spec (seed a) 0); [lia | reflexivity]. }
  assert (Hmid : (0 < seed a < 2 ^ 32)%Z ->
                 seed_sources (seed a) (gym_make (env a)) =
                   (Ok tt, [NpSeed (seed a); EnvSeed (seed a)],
                    env_seed (seed a) (gym_make (env a)))).
  { intros Hs. unfold seed_sources.
    destruct (Z.gtb_spec (seed a) 0); [|lia].
    rewrite np_random_seed_ok by lia. reflexivity. }
  assert (Hbig : (2 ^ 32 <= seed a)%Z ->
                 seed_sources (seed a) (gym_make (env a)) =
                   (Raise
                      (ValueError "Seed must be between 0 and 2**32 - 1"),
                    [], gym_make (env a))).
  { intros Hs. unfold seed_sources.
    destruct (Z.gtb_spec (seed a) 0); [|lia].
    rewrite np_random_seed_large by lia. reflexivity. }
  split; [exact Hle|]. split; [exact Hmid|]. split.
  - intros Hs. split; [exact (Hbig Hs)|].
    unfold startup. cbv zeta.
    change (env (set_output a _)) with (env a).
    change (seed (set_output a _)) with (seed a).
    rewrite (Hbig Hs). reflexivity.
  - intros g w E. apply startup_ok in E as (_ & _ & Hseed & _). split.
    + intros Hs.
      destruct (Z.lt_ge_cases (seed a) (2 ^ 32)) as [Hlt|Hge].
      * rewrite Hmid in Hseed by lia. injection Hseed as <- <-. auto.
      * rewrite (Hbig Hge) in Hseed. discriminate.
    + intros Hs. rewrite (Hle Hs) in Hseed. injection Hseed as <- <-.
      auto.
Qed.

(** C7.  Once the objects are constructed, a mode other than ['train'] and
    ['test'] makes [__main__] raise [RuntimeError('undefined mode ...')]
    with no call made on any object; mode ['train'] runs [train] and mode
    ['test'] runs [test], on the parsed arguments. *)
Theorem mode_dispatch body actor_init fuel a pk ck g w :
  startup a pk ck = Ok (g, w) ->
  (mode a <> "train" -> mode a <> "test" ->
   main body actor_init fuel a pk ck =
     (Raise (RuntimeError ("undefined mode " +:+ mode a)), Some w)) /\
  (mode a = "train" ->
   main body actor_init fuel a pk ck =
     run
       (train body actor_init fuel g (n_gen a) (n_episodes a) (omega a)
          (get_output_folder (output a) (env a)) (debug a) (render a)) w) /\
  (mode a = "test" ->
   main body actor_init fuel a pk ck =
     run
       (test body actor_init fuel g (n_test a) (filename a) (debug a)
          (render a)) w).
Proof.
  intros E. unfold main. rewrite E.
  apply startup_ok in E as (_ & Hargs & _). unfold dispatch. rewrite Hargs.
  change (mode (set_output a _)) with (mode a).
  split; [|split].
  - intros Htrain Htest.
    apply String.eqb_neq in Htrain, Htest. rewrite Htrain, Htest.
    reflexivity.
  - intros ->. reflexivity.
  - intros ->. reflexivity.
Qed.

Lemma py_int_fraction (x : Q) : (0 < x)%Q -> (x < 1)%Q -> py_int x = 0%Z.
Proof.
  destruct x as [n d]. unfold Qlt, py_int. simpl. intros Hpos Hlt.
  apply Z.quot_small. lia.
Qed.

Lemma scale_zero (y : list (list Q)) : Forall all_zero (scale 0 y).
Proof.
  unfold scale. induction y as [|row y IH]; simpl; constructor; trivial.
  unfold all_zero. induction row; simpl; constructor; trivial.
  apply Qmult_0_l.
Qed.

(** C10.  [max_action] is the action bound truncated to an integer; for
    an environment whose bound lies strictly between 0 and 1 it is 0, so
    that every output of the actor's [forward] is 0 and, in [evaluate] with
    [random=False], every action handed to [env.step] is 0, whatever the
    actor and the noise. *)
Theorem fractional_bound_zeroes_actions body a pk ck g w0 :
  startup a pk ck = Ok (g, w0) ->
  max_action g = py_int (action_space_high0 (gym_make (env a))) /\
  ((0 < action_space_high0 (gym_make (env a)))%Q ->
   (action_space_high0 (gym_make (env a)) < 1)%Q ->
   max_action g = 0%Z /\
   (forall ps x, Forall all_zero (forward body ActorERL (max_action g) ps x))
   /\
   (forall fuel actor n_episodes noise render add_memory w,
      exists t,
        env_log
          (snd (evaluate body fuel g actor n_episodes false noise render
                  add_memory w)) = env_log w ++ t /\
        Forall (steps_satisfy all_zero) t)).
Proof.
  intros E. apply startup_ok in E as (Hmax & _). split; [exact Hmax|].
  intros Hpos Hlt. rewrite (py_int_fraction _ Hpos Hlt) in Hmax.
  split; [exact Hmax | split].
  - intros ps x. rewrite Hmax. apply scale_zero.
  - intros fuel actor n_episodes noise render add_memory w.
    destruct (evaluate_log_clipped body fuel g actor n_episodes noise
                render add_memory w) as (t & Ht & Hclip).
    exists t. split; [exact Ht|].
    revert Hclip. apply Forall_steps_impl. intros act Hact.
    apply within_zero. rewrite <- Hmax.
    apply clipped_within; [lia | exact Hact].
Qed.

End Main.

End GesFacts.

(** * The theorems on the stub instance *)

Module Runs.
Import Models Ges Vocab Stub GesFacts.

(** The defect behind C2 on the stub: the population is evaluated (two
    5-step episodes), the fitnesses are told, then the lookup raises. *)
Example train_es_stub :
  exists w',
    train_es (H := stub_env 5 1) stub_body stub_actor_init 10 stub_globals 1
      false false false stub_world =
      (Raise
         (AttributeError "'ActorERL' object has no attribute 'actor_grad'"),
       w') /\
    calls w' =
      [EsAsk; EsTell [Fin 5; Fin 5] [[0%Q; 0%Q]; [0%Q; 0%Q]]] /\
    length (env_log w') = 14.
Proof.
  eexists. split; [vm_compute; reflexivity|]. split; vm_compute; reflexivity.
Qed.

Lemma train_log_defects_witness :
  (is_ok
     (fst (train (H := stub_env 5 1) stub_body stub_actor_init 10
             stub_globals 2 1 10 "out" false false stub_world)) = false
   /\ pickles
        (snd (train (H := stub_env 5 1) stub_body stub_actor_init 10
                stub_globals 2 1 10 "out" false false stub_world))
      = pickles stub_world)
  /\ exists rows,
       pickles
         (snd (generations five_steps stub_globals 1 "out" false false
                 (Z.to_nat 2) 0 0 [] stub_world))
         !! ("out" +:+ "/log.pkl") = Some rows /\
       Z.of_nat (length rows) = (2 - 1)%Z /\
       Forall (fun r => best_score r = 0%Q) rows.
Proof.
  destruct (train_log_defects (H := stub_env 5 1) stub_body stub_actor_init
              10 stub_globals 2 1 10 "out" false false stub_world)
    as [Hrun Hloop]; [lia|].
  split; [exact Hrun|]. apply (Hloop five_steps). vm_compute. reflexivity.
Defined.

(** The persisted log after that two-generation loop: one row. *)
Example two_generations_one_row :
  pickles
    (snd (generations five_steps stub_globals 1 "out" false false 2 0 0 []
            stub_world)) !! "out/log.pkl" = Some [Row 5 0].
Proof. vm_compute. reflexivity. Qed.

Lemma test_never_steps_witness :
  is_ok
    (fst (test (H := stub_env 5 1) stub_body stub_actor_init 10 stub_globals
            1 "run" false false saved_world)) = false
  /\ grows env_log not_step saved_world
       (snd (test (H := stub_env 5 1) stub_body stub_actor_init 10
               stub_globals 1 "run" false false saved_world))
  /\ fst (test (H := stub_env 5 1) stub_body stub_actor_init 10 stub_globals
            1 "run" false false saved_world) =
       Raise (AttributeError "'bool' object has no attribute 'sample'").
Proof.
  destruct (test_never_steps (H := stub_env 5 1) stub_body stub_actor_init
              10 stub_globals 1 "run" false false saved_world)
    as (Hfail & Hlog & Hraise); [lia|].
  split; [exact Hfail | split; [exact Hlog|]].
  apply (Hraise linear11); [vm_compute; reflexivity | reflexivity | lia].
Defined.

Lemma evaluate_double_reset_witness :
  exists t,
    env_log
      (snd (evaluate (H := stub_env 5 1) stub_body 10 stub_globals
              (ActorNet 1 linear11) 2 false NoiseNone true true stub_world))
      = env_log stub_world ++ t /\
    episodes_events true (Z.to_nat 2) t.
Proof.
  apply (evaluate_double_reset (H := stub_env 5 1) stub_body 10 stub_globals
           (ActorNet 1 linear11) 2 false NoiseNone true true stub_world
           (Fin (10 # 2), 10)).
  vm_compute. reflexivity.
Defined.

Lemma evaluate_actions_clipped_witness :
  exists t,
    env_log
      (snd (evaluate (H := stub_env 5 1) stub_body 10 stub_globals
              (ActorNet 1 linear11) 1 false NoiseProcess false true
              stub_world)) = env_log stub_world ++ t /\
    Forall (steps_satisfy (clipped stub_globals)) t /\
    Forall (steps_satisfy (within 1)) t.
Proof.
  destruct (evaluate_actions_clipped (H := stub_env 5 1) stub_body 10
              stub_globals (ActorNet 1 linear11) 1 NoiseProcess false true
              stub_world) as (t & Ht & Hclip & Hin).
  exists t. split; [exact Ht | split; [exact Hclip|]].
  apply Hin. simpl. lia.
Defined.

(** In that run the actor answers 1/2, the noise adds 5, and the
    environment is handed 1 at each of the 5 steps. *)
Example clipped_run :
  env_log
    (snd (evaluate (H := stub_env 5 1) stub_body 10 stub_globals
            (ActorNet 1 linear11) 1 false NoiseProcess false true
            stub_world)) =
    [EnvReset; EnvStep [1%Q] false; EnvStep [1%Q] false;
     EnvStep [1%Q] false; EnvStep [1%Q] false; EnvStep [1%Q] true;
     EnvReset].
Proof. vm_compute. reflexivity. Qed.

Lemma seeding_iff_positive_witness :
  ((3 < 2 ^ 32)%Z /\
   calls (snd (started 1 (with_seed 3 default_args))) =
     [NpSeed 3; EnvSeed 3] /\
   w_env (snd (started 1 (with_seed 3 default_args))) =
     env_seed (GymEnv := stub_env 5 1) 3
       (gym_make (GymEnv := stub_env 5 1) "HalfCheetah-v2")) /\
  (calls (snd (started 1 default_args)) = [] /\
   w_env (snd (started 1 default_args)) =
     gym_make (GymEnv := stub_env 5 1) "HalfCheetah-v2") /\
  seed_sources (H := stub_env 5 1) 3
    (gym_make (GymEnv := stub_env 5 1) "HalfCheetah-v2") =
    (Ok tt, [NpSeed 3; EnvSeed 3],
     env_seed (GymEnv := stub_env 5 1) 3
       (gym_make (GymEnv := stub_env 5 1) "HalfCheetah-v2")) /\
  (seed_sources (H := stub_env 5 1) (2 ^ 32)
     (gym_make (GymEnv := stub_env 5 1) "HalfCheetah-v2") =
     (Raise (ValueError "Seed must be between 0 and 2**32 - 1"), [],
      gym_make (GymEnv := stub_env 5 1) "HalfCheetah-v2") /\
   startup (H := stub_env 5 1) (with_seed (2 ^ 32) default_args) ∅ ∅ =
     Raise (ValueError "Seed must be between 0 and 2**32 - 1")).
Proof.
  destruct (seeding_iff_positive (H := stub_env 5 1)
              (with_seed 3 default_args) ∅ ∅) as (_ & Hmid & _ & Hok).
  destruct (seeding_iff_positive (H := stub_env 5 1) default_args ∅ ∅)
    as (_ & _ & _ & Hno).
  destruct (seeding_iff_positive (H := stub_env 5 1)
              (with_seed (2 ^ 32) default_args) ∅ ∅) as (_ & _ & Hbig & _).
  split; [|split; [|split]].
  - apply (Hok (fst (started 1 (with_seed 3 default_args)))
             (snd (started 1 (with_seed 3 default_args))));
      [vm_compute; reflexivity | simpl; lia].
  - apply (Hno (fst (started 1 default_args))
             (snd (started 1 default_args)));
      [vm_compute; reflexivity | simpl; lia].
  - apply Hmid. simpl. lia.
  - apply Hbig. simpl. lia.
Defined.

(** The largest seed numpy accepts, and the first it rejects. *)
Example seed_at_the_bound :
  fst (fst (seed_sources (H := stub_env 5 1) (2 ^ 32 - 1)
              (gym_make (GymEnv := stub_env 5 1) "HalfCheetah-v2"))) =
    Ok tt /\
  main (H := stub_env 5 1) stub_body stub_actor_init 10
    (with_seed (2 ^ 32) default_args) ∅ ∅ =
    (Raise (ValueError "Seed must be between 0 and 2**32 - 1"), None).
Proof. split; vm_compute; reflexivity. Qed.

(** C6 (as stated) fails at seed 0: the seed is >= 0, [startup] succeeds,
    and neither numpy nor the environment has been seeded. *)
Lemma seed_zero_not_seeded :
  (seed (with_seed 0 default_args) >= 0)%Z /\
  startup (H := stub_env 5 1) (with_seed 0 default_args) ∅ ∅ =
    Ok (started 1 (with_seed 0 default_args)) /\
  calls (snd (started 1 (with_seed 0 default_args))) = [] /\
  w_env (snd (started 1 (with_seed 0 default_args))) =
    gym_make (GymEnv := stub_env 5 1) "HalfCheetah-v2".
Proof.
  split; [simpl; lia|]. split; [|split]; vm_compute; reflexivity.
Qed.

Lemma mode_dispatch_witness :
  main (H := stub_env 5 1) stub_body stub_actor_init 10
    (with_mode "play" default_args) ∅ ∅ =
    (Raise (RuntimeError ("undefined mode " +:+ "play")),
     Some (snd (started 1 (with_mode "play" default_args))))
  /\ main (H := stub_env 5 1) stub_body stub_actor_init 10
       (with_mode "train" default_args) ∅ ∅ =
     run
       (train (H := stub_env 5 1) stub_body stub_actor_init 10
          (fst (started 1 (with_mode "train" default_args))) 100 1 10
          "results/HalfCheetah-v2-run0" false false)
       (snd (started 1 (with_mode "train" default_args)))
  /\ main (H := stub_env 5 1) stub_body stub_actor_init 10
       (with_mode "test" default_args) ∅ ∅ =
     run
       (test (H := stub_env 5 1) stub_body stub_actor_init 10
          (fst (started 1 (with_mode "test" default_args))) 1 "" false
          false)
       (snd (started 1 (with_mode "test" default_args))).
Proof.
  split; [|split].
  - destruct (mode_dispatch (H := stub_env 5 1) stub_body stub_actor_init 10
                (with_mode "play" default_args) ∅ ∅
                (fst (started 1 (with_mode "play" default_args)))
                (snd (started 1 (with_mode "play" default_args))))
      as (Hother & _ & _); [vm_compute; reflexivity|].
    exact (Hother ltac:(discriminate) ltac:(discriminate)).
  - destruct (mode_dispatch (H := stub_env 5 1) stub_body stub_actor_init 10
                (with_mode "train" default_args) ∅ ∅
                (fst (started 1 (with_mode "train" default_args)))
                (snd (started 1 (with_mode "train" default_args))))
      as (_ & Htrain & _); [vm_compute; reflexivity|].
    exact (Htrain eq_refl).
  - destruct (mode_dispatch (H := stub_env 5 1) stub_body stub_actor_init 10
                (with_mode "test" default_args) ∅ ∅
                (fst (started 1 (with_mode "test" default_args)))
                (snd (started 1 (with_mode "test" default_args))))
      as (_ & _ & Htest); [vm_compute; reflexivity|].
    exact (Htest eq_refl).
Defined.

Lemma fractional_bound_zeroes_actions_witness :
  max_action (fst (started (1 # 2) default_args)) = 0%Z /\
  (forall ps x,
     Forall all_zero
       (forward stub_body ActorERL
          (max_action (fst (started (1 # 2) default_args))) ps x)) /\
  (forall fuel actor n_episodes noise render add_memory w,
     exists t,
       env_log
         (snd (evaluate (H := stub_env 5 (1 # 2)) stub_body fuel
                 (fst (started (1 # 2) default_args)) actor n_episodes false
                 noise render add_memory w)) = env_log w ++ t /\
       Forall (steps_satisfy all_zero) t).
Proof.
  destruct (fractional_bound_zeroes_actions (H := stub_env 5 (1 # 2))
              stub_body default_args ∅ ∅
              (fst (started (1 # 2) default_args))
              (snd (started (1 # 2) default_args)))
    as [_ Hzero]; [vm_compute; reflexivity|].
  apply Hzero; reflexivity.
Defined.

(** With the bound 1/2 the actor answers 0 * 1/2, the noise adds 5, and the
    environment is handed 0 at every step. *)
Example zero_run :
  env_log
    (snd (evaluate (H := stub_env 5 (1 # 2)) stub_body 10
            (fst (started (1 # 2) default_args)) (ActorNet 0 linear11) 1
            false NoiseProcess false true
            (snd (started (1 # 2) default_args)))) =
    [EnvReset; EnvStep [0%Q] false; EnvStep [0%Q] false;
     EnvStep [0%Q] false; EnvStep [0%Q] false; EnvStep [0%Q] true;
     EnvReset].
Proof. vm_compute. reflexivity. Qed.

(** The stub environment ends every episode within 5 steps, so
    [evaluate] returns on it for any fuel above 5. *)
Lemma stub_evaluate_returns fuel g actor n_episodes random render add_memory
  w :
  5 < fuel ->
  exists res w',
    evaluate (H := stub_env 5 1) stub_body fuel g actor n_episodes random
      NoiseNone render add_memory w = (Ok res, w').
Proof.
  apply (evaluate_returns (H := stub_env 5 1) stub_body (fun s => 5 - s) 5);
    simpl; intros; try lia.
  do 5 (destruct s as [|s]; [lia|]). discriminate.
Qed.

End Runs.

(** * More properties of models.py *)

Module ModelsMore.
Import Models Vocab More ModelsFacts.

Lemma count_sizes ps :
  count ps = sum_list (map prod_list (map tsize ps)).
Proof.
  induction ps as [|p ps IH]; [reflexivity|].
  rewrite count_cons, IH. reflexivity.
Qed.

Lemma arch_count a sd ad :
  Z.of_nat (sum_list (map prod_list (arch_sizes a sd ad))) =
    param_count a (Z.of_nat sd) (Z.of_nat ad).
Proof.
  destruct a as [| | |[]|[]|[]]; unfold arch_sizes, param_count;
    cbn [layers app map layer_sizes concat sum_list sum_list_with prod_list
           foldr]; unfold id; lia.
Qed.

(** X1.  [get_size] of a network of each class is the closed form of its
    layers: e.g. [128 * state_dim + 129 * action_dim + 17152] for
    [ActorERL], twice the single critic's count for the twin critics, and
    1400 more with [layer_norm]. *)
Theorem get_size_closed_form a sd ad ps :
  params_of a sd ad ps ->
  exists n,
    get_size ps = Ok n /\
    Z.of_nat n = param_count a (Z.of_nat sd) (Z.of_nat ad).
Proof.
  intros Hps. destruct (params_of_ranked _ _ _ _ Hps) as (Hr & Hne & Hok).
  exists (count ps). split; [apply get_size_count; trivial|].
  rewrite count_sizes. destruct Hps as [-> _]. apply arch_count.
Qed.

Lemma get_size_closed_form_witness :
  params_of ActorERL 17 6 (Stub.zeros (arch_sizes ActorERL 17 6)) /\
  exists n,
    get_size (Stub.zeros (arch_sizes ActorERL 17 6)) = Ok n /\
    Z.of_nat n = param_count ActorERL (Z.of_nat 17) (Z.of_nat 6).
Proof.
  split; [apply zeros_params_of|].
  apply (get_size_closed_form ActorERL 17 6), zeros_params_of.
Defined.

Lemma fill_sizes v ps : forall cpt, map tsize (fill v cpt ps) = map tsize ps.
Proof. induction ps; intros; simpl; [|rewrite IHps]; reflexivity. Qed.

Lemma fill_ext v ps ps' : forall cpt,
  map tsize ps = map tsize ps' -> fill v cpt ps = fill v cpt ps'.
Proof.
  revert ps'. induction ps as [|p ps IH]; intros [|p' ps'] cpt E;
    try discriminate; [reflexivity|].
  simpl in *. injection E as Ep E. rewrite Ep. f_equal. apply IH, E.
Qed.

Lemma fill_data v ps : forall cpt,
  cpt + count ps <= length v ->
  concat (map tdata (fill v cpt ps)) = take (count ps) (drop cpt v).
Proof.
  induction ps as [|p ps IH]; intros cpt Hlen; [reflexivity|].
  rewrite count_cons in *. simpl. rewrite IH by lia.
  rewrite <- drop_drop. apply take_take_drop.
Qed.

Lemma fill_ok v ps : forall cpt,
  cpt + count ps <= length v -> Forall tensor_ok (fill v cpt ps).
Proof.
  induction ps as [|p ps IH]; intros cpt Hlen; simpl; constructor.
  - rewrite count_cons in Hlen. unfold tensor_ok. simpl.
    rewrite length_take, length_drop. lia.
  - rewrite count_cons in Hlen. apply IH. lia.
Qed.

(** X2.  Reading back what was loaded: for a network of any class with
    parameter count [n] and a vector of at least [n] entries, [get_params]
    after [set_params] returns the first [n] entries of the vector (the
    vector itself when it has exactly [n]), and the network is again a
    well-formed network of its class. *)
Theorem get_params_after_set_params a sd ad ps v :
  params_of a sd ad ps ->
  exists n,
    get_size ps = Ok n /\
    (n <= length v ->
     exists ps',
       set_params v ps = (Ok tt, ps') /\
       get_params ps' = Ok (take n v) /\
       params_of a sd ad ps').
Proof.
  intros Hps. destruct (params_of_ranked _ _ _ _ Hps) as (Hr & Hne & Hok).
  exists (count ps). split; [apply get_size_count; trivial|].
  intros Hlen. exists (fill v 0 ps). split; [|split].
  - apply set_params_from_fill; trivial.
  - unfold get_params. rewrite fill_data by exact Hlen.
    destruct ps; [congruence | reflexivity].
  - split; [rewrite fill_sizes; apply Hps | apply fill_ok, Hlen].
Qed.

Lemma get_params_after_set_params_witness :
  params_of ActorERL 1 1 (Stub.zeros (arch_sizes ActorERL 1 1)) /\
  exists ps',
    set_params
      (concat (map tdata (Stub.zeros (arch_sizes ActorERL 1 1))) ++ [1%Q])
      (Stub.zeros (arch_sizes ActorERL 1 1)) = (Ok tt, ps') /\
    get_params ps' =
      Ok (take (count (Stub.zeros (arch_sizes ActorERL 1 1)))
            (concat (map tdata (Stub.zeros (arch_sizes ActorERL 1 1)))
               ++ [1%Q])) /\
    params_of ActorERL 1 1 ps'.
Proof.
  pose proof (zeros_params_of ActorERL 1 1) as Hps.
  destruct (params_of_ranked _ _ _ _ Hps) as (Hr & Hne & Hok).
  split; [exact Hps|].
  destruct (get_params_after_set_params ActorERL 1 1 _
              (concat (map tdata (Stub.zeros (arch_sizes ActorERL 1 1)))
                 ++ [1%Q]) Hps) as (n & Hn & Hload).
  rewrite (get_size_count _ Hne Hok) in Hn.
  set (ps := Stub.zeros (arch_sizes ActorERL 1 1)) in *.
  assert (En : n = count ps) by congruence. rewrite <- En.
  apply Hload. rewrite length_app, count_concat, En by exact Hok. lia.
Defined.

Lemma set_params_from_sizes v ps : forall cpt,
  map tsize (snd (set_params_from v cpt ps)) = map tsize ps /\
  (Forall tensor_ok ps -> Forall tensor_ok (snd (set_params_from v cpt ps))).
Proof.
  induction ps as [|p ps IH]; intros cpt; simpl; [auto|].
  destruct (np_product (tsize p)) as [tmp|q] eqn:Etmp; [|auto].
  unfold view. destruct (Nat.eqb_spec
                           (length (py_slice v cpt (cpt + tmp)))
                           (prod_list (tsize p))) as [Hfit|Hcut]; [|auto].
  destruct (IH (cpt + tmp)) as [Hsz Hok].
  destruct (set_params_from v (cpt + tmp) ps) as [r ps']. simpl in *.
  split; [rewrite Hsz; reflexivity|].
  intros Hall. inversion Hall; subst. constructor; [exact Hfit | auto].
Qed.

(** X3.  Whatever the vector and whatever the outcome, [set_params] leaves
    every tensor with the size it had, and a network whose tensors hold as
    many entries as their size says stays so, also when the call raises. *)
Theorem set_params_keeps_sizes (v : list Q) (ps : list tensor) :
  map tsize (snd (set_params v ps)) = map tsize ps /\
  (Forall tensor_ok ps -> Forall tensor_ok (snd (set_params v ps))).
Proof. apply set_params_from_sizes. Qed.

Lemma set_params_keeps_sizes_witness :
  map tsize (snd (set_params [1%Q] Stub.linear11)) = map tsize Stub.linear11
  /\ Forall tensor_ok (snd (set_params [1%Q] Stub.linear11)).
Proof.
  destruct (set_params_keeps_sizes [1%Q] Stub.linear11) as [Hsz Hok].
  split; [exact Hsz | apply Hok; repeat constructor].
Defined.

Lemma offset_S p ps i :
  offset (p :: ps) (S i) = prod_list (tsize p) + offset ps i.
Proof. reflexivity. Qed.

Lemma set_params_from_partial v ps : forall cpt i t,
  ranked ps -> cpt <= length v -> ps !! i = Some t ->
  (cpt + offset ps i + numel t <= length v ->
   snd (set_params_from v cpt ps) !! i =
     Some (Tensor (tsize t) (take (numel t) (drop (cpt + offset ps i) v))))
  /\
  (length v < cpt + offset ps i + numel t ->
   snd (set_params_from v cpt ps) !! i = Some t).
Proof.
  induction ps as [|p ps IH]; intros cpt i t Hr Hcpt Hi; [easy|].
  inversion Hr as [|? ? Hp Hrest]; subst. simpl.
  rewrite (np_product_ranked _ Hp), py_slice_take.
  destruct (le_lt_dec (cpt + prod_list (tsize p)) (length v)) as [Hfit|Hcut].
  - rewrite view_exact by (rewrite length_take, length_drop; lia).
    destruct (set_params_from v (cpt + prod_list (tsize p)) ps)
      as [r ps'] eqn:E.
    destruct i as [|i]; simpl in Hi.
    + injection Hi as <-. unfold offset, count, numel. simpl.
      rewrite Nat.add_0_r. split; [reflexivity | lia].
    + specialize (IH (cpt + prod_list (tsize p)) i t Hrest Hfit Hi).
      rewrite E in IH. simpl in IH. rewrite offset_S. simpl.
      rewrite !Nat.add_assoc. exact IH.
  - rewrite view_mismatch by (rewrite length_take, length_drop; lia).
    simpl. split; [|intros _; exact Hi].
    intros Hlen. exfalso. destruct i as [|i]; simpl in Hi.
    + injection Hi as <-. unfold offset, count, numel in Hlen.
      simpl in Hlen. lia.
    + rewrite offset_S in Hlen. lia.
Qed.

(** X4.  [set_params] is not all-or-nothing: for a network of any class and any
    vector, also one that is too short, each tensor whose slice lies
    entirely within the vector ends up holding that slice, and each tensor
    whose slice would run past the end of the vector is left as it was. *)
Theorem set_params_partial a sd ad ps v i t :
  params_of a sd ad ps -> ps !! i = Some t ->
  (offset ps i + numel t <= length v ->
   snd (set_params v ps) !! i =
     Some (Tensor (tsize t) (take (numel t) (drop (offset ps i) v))))
  /\
  (length v < offset ps i + numel t ->
   snd (set_params v ps) !! i = Some t).
Proof.
  intros Hps Hi. destruct (params_of_ranked _ _ _ _ Hps) as (Hr & _ & _).
  apply (set_params_from_partial v ps 0 i t Hr); [lia | exact Hi].
Qed.

Lemma set_params_partial_witness :
  snd (set_params (repeat 1%Q 200) (Stub.zeros (arch_sizes ActorERL 1 1)))
    !! 0 =
    Some (Tensor (tsize (Tensor [128; 1] (repeat 0%Q 128)))
            (take (numel (Tensor [128; 1] (repeat 0%Q 128)))
               (drop (offset (Stub.zeros (arch_sizes ActorERL 1 1)) 0)
                  (repeat 1%Q 200))))
  /\ snd (set_params (repeat 1%Q 200) (Stub.zeros (arch_sizes ActorERL 1 1)))
       !! 4 = Some (Tensor [128; 128] (repeat 0%Q (128 * 128))).
Proof.
  split.
  - apply (set_params_partial ActorERL 1 1 _ (repeat 1%Q 200) 0
             (Tensor [128; 1] (repeat 0%Q 128)));
      [apply zeros_params_of | reflexivity | vm_compute; lia].
  - apply (set_params_partial ActorERL 1 1 _ (repeat 1%Q 200) 4
             (Tensor [128; 128] (repeat 0%Q (128 * 128))));
      [apply zeros_params_of | reflexivity |].
    rewrite repeat_length. unfold offset, numel.
    cbn [tsize prod_list foldr]. lia.
Defined.

(** X5.  Loading twice: for a network of any class and two vectors that both
    have at least as many entries as the network has parameters, loading
    the second after the first leaves the network as loading the second
    alone does; nothing of the first load survives. *)
Theorem set_params_last_wins a sd ad ps v1 v2 :
  params_of a sd ad ps ->
  exists n,
    get_size ps = Ok n /\
    (n <= length v1 -> n <= length v2 ->
     exists ps1 ps2,
       set_params v1 ps = (Ok tt, ps1) /\
       set_params v2 ps1 = (Ok tt, ps2) /\
       set_params v2 ps = (Ok tt, ps2)).
Proof.
  intros Hps. destruct (params_of_ranked _ _ _ _ Hps) as (Hr & Hne & Hok).
  exists (count ps). split; [apply get_size_count; trivial|].
  intros H1 H2. exists (fill v1 0 ps), (fill v2 0 ps).
  assert (Esz : map tsize (fill v1 0 ps) = map tsize ps) by apply fill_sizes.
  split; [|split]; try (apply set_params_from_fill; trivial).
  unfold set_params. rewrite set_params_from_fill.
  - f_equal. apply fill_ext, Esz.
  - unfold ranked in *. clear -Hr Esz. revert Esz Hr.
    generalize (fill v1 0 ps). induction ps as [|p ps IH];
      intros [|q qs] E Hr; try discriminate; constructor;
      inversion Hr; subst; injection E as E1 E2.
    + rewrite E1. assumption.
    + eapply IH; eauto.
  - rewrite count_sizes, Esz, <- count_sizes. exact H2.
Qed.

Lemma set_params_last_wins_witness :
  exists ps1 ps2,
    set_params
      (concat (map tdata (Stub.zeros (arch_sizes CriticERL 3 2))) ++ [1%Q])
      (Stub.zeros (arch_sizes CriticERL 3 2)) = (Ok tt, ps1) /\
    set_params
      (concat (map tdata (Stub.zeros (arch_sizes CriticERL 3 2))) ++ [2%Q])
      ps1 = (Ok tt, ps2) /\
    set_params
      (concat (map tdata (Stub.zeros (arch_sizes CriticERL 3 2))) ++ [2%Q])
      (Stub.zeros (arch_sizes CriticERL 3 2)) = (Ok tt, ps2).
Proof.
  pose proof (zeros_params_of CriticERL 3 2) as Hps.
  destruct (params_of_ranked _ _ _ _ Hps) as (Hr & Hne & Hok).
  destruct (set_params_last_wins CriticERL 3 2 _
              (concat (map tdata (Stub.zeros (arch_sizes CriticERL 3 2)))
                 ++ [1%Q])
              (concat (map tdata (Stub.zeros (arch_sizes CriticERL 3 2)))
                 ++ [2%Q]) Hps) as (n & Hn & Hload).
  rewrite (get_size_count _ Hne Hok) in Hn.
  set (ps := Stub.zeros (arch_sizes CriticERL 3 2)) in *.
  assert (En : n = count ps) by congruence.
  apply Hload; rewrite length_app, count_concat, En by exact Hok; lia.
Defined.

Lemma ranked_sizes ps ps' :
  map tsize ps = map tsize ps' -> ranked ps' -> ranked ps.
Proof.
  unfold ranked. revert ps'. induction ps as [|p ps IH];
    intros [|q qs] E Hr; try discriminate; constructor;
    inversion Hr; subst; injection E as E1 E2.
  - rewrite E1. assumption.
  - eapply IH; eauto.
Qed.

Lemma count_app ps qs : count (ps ++ qs) = count ps + count qs.
Proof.
  induction ps as [|p ps IH]; [reflexivity|].
  rewrite <- app_comm_cons, !count_cons, IH. lia.
Qed.

(** A network whose tensor sizes are those of the first tensors of another
    loads the other's parameter vector without complaint, and ends up with
    exactly those first tensors. *)
Lemma set_params_of_longer_network ps qs extra :
  ranked qs -> Forall tensor_ok qs -> map tsize ps = map tsize qs ->
  set_params (concat (map tdata (qs ++ extra))) ps = (Ok tt, qs).
Proof.
  intros Hr Hok Esz. rewrite map_app, concat_app.
  unfold set_params. rewrite set_params_from_fill.
  - rewrite (fill_ext _ ps qs 0 Esz). f_equal.
    apply (fill_own_data qs _ [] Hok).
  - apply (ranked_sizes _ _ Esz Hr).
  - rewrite count_sizes, Esz, <- count_sizes, length_app,
      count_concat by exact Hok. lia.
Qed.

Lemma layer_norm_sizes (mk : bool -> arch) sd ad :
  mk = Actor \/ mk = Critic ->
  arch_sizes (mk true) sd ad =
    arch_sizes (mk false) sd ad ++ [[400]; [400]; [300]; [300]].
Proof. intros [-> | ->]; reflexivity. Qed.

(** X6.  [Actor] and [Critic] with [layer_norm] register their normalisation
    layers after the three linear layers.  Hence the parameter vector of a
    network with [layer_norm] loads into the network without it (same
    dimensions) without any error, giving it the six linear tensors and
    dropping the 1400 normalisation entries; the other way round,
    [set_params] raises. *)
Theorem layer_norm_vector_into_plain (mk : bool -> arch) sd ad ps_ln ps :
  mk = Actor \/ mk = Critic ->
  params_of (mk true) sd ad ps_ln ->
  params_of (mk false) sd ad ps ->
  (exists v,
     get_params ps_ln = Ok v /\ set_params v ps = (Ok tt, take 6 ps_ln)) /\
  (exists v ps',
     get_params ps = Ok v /\
     set_params v ps_ln =
       (Raise (RuntimeError "shape is invalid for input size"), ps')).
Proof.
  intros Hmk Hln Hplain.
  destruct (params_of_ranked _ _ _ _ Hln) as (Hr & Hne & Hok).
  destruct (params_of_ranked _ _ _ _ Hplain) as (Hr' & Hne' & Hok').
  destruct Hln as [Eln _], Hplain as [Eplain _].
  rewrite (layer_norm_sizes mk sd ad Hmk), <- Eplain in Eln.
  assert (Hlen : length ps = 6).
  { apply (f_equal length) in Eplain. rewrite length_map in Eplain.
    rewrite Eplain. destruct Hmk as [-> | ->]; reflexivity. }
  assert (Esz : map tsize ps = map tsize (take 6 ps_ln)).
  { change (map tsize (take 6 ps_ln)) with (tsize <$> take 6 ps_ln).
    rewrite fmap_take. change (tsize <$> ps_ln) with (map tsize ps_ln).
    rewrite Eln, take_app_length'; [reflexivity|].
    rewrite length_map. congruence. }
  assert (Etail : map tsize (drop 6 ps_ln) = [[400]; [400]; [300]; [300]]).
  { change (map tsize (drop 6 ps_ln)) with (tsize <$> drop 6 ps_ln).
    rewrite fmap_drop. change (tsize <$> ps_ln) with (map tsize ps_ln).
    rewrite Eln. rewrite <- Hlen, <- (length_map tsize ps).
    apply drop_app_length. }
  split.
  - exists (concat (map tdata ps_ln)). split.
    + destruct ps_ln; [congruence | reflexivity].
    + rewrite <- (take_drop 6 ps_ln) at 1.
      apply set_params_of_longer_network; trivial.
      * unfold ranked. apply Forall_take, Hr.
      * apply Forall_take, Hok.
  - exists (concat (map tdata ps)).
    destruct (set_params_from_short (concat (map tdata ps)) ps_ln 0 Hr)
      as [ps' E]; [lia | |].
    + rewrite count_concat by exact Hok'.
      rewrite <- (take_drop 6 ps_ln), count_app.
      rewrite (count_sizes (take 6 ps_ln)), <- Esz, <- count_sizes.
      rewrite (count_sizes (drop 6 ps_ln)), Etail. simpl. lia.
    + exists ps'. split; [|exact E].
      destruct ps; [congruence | reflexivity].
Qed.

Lemma layer_norm_vector_into_plain_witness :
  (exists v,
     get_params (Stub.zeros (arch_sizes (Actor true) 3 2)) = Ok v /\
     set_params v (Stub.zeros (arch_sizes (Actor false) 3 2)) =
       (Ok tt, take 6 (Stub.zeros (arch_sizes (Actor true) 3 2)))) /\
  (exists v ps',
     get_params (Stub.zeros (arch_sizes (Actor false) 3 2)) = Ok v /\
     set_params v (Stub.zeros (arch_sizes (Actor true) 3 2)) =
       (Raise (RuntimeError "shape is invalid for input size"), ps')).
Proof.
  apply (layer_norm_vector_into_plain Actor 3 2);
    [left; reflexivity | apply zeros_params_of | apply zeros_params_of].
Defined.

End ModelsMore.

(** * More properties of ges.py *)

Module GesMore.
Import Models Ges Vocab More ModelsFacts ModelsMore GesFacts.

Section Evaluate.
Context `{GymEnv} `{Agent} `{RandomProcess} `{Optimizer}.

Lemma sum_Q_app l l' : (sum_Q (l ++ l') == sum_Q l + sum_Q l')%Q.
Proof.
  induction l as [|x l IH]; simpl; [ring|]. rewrite IH. ring.
Qed.

Lemma steps_of_app t t' : steps_of (t ++ t') = steps_of t ++ steps_of t'.
Proof.
  induction t as [|[|a d|] t IH]; simpl; rewrite ?IH; reflexivity.
Qed.

Lemma policy_frame body g actor random noise state w r w' :
  policy body g actor random noise state w = (r, w') ->
  memory w' = memory w /\ rest_of w' = rest_of w.
Proof.
  unfold policy, bind, ret, raise, lift, sample_noise, sample_action.
  intros E. destruct random, noise; simpl in E; run_calls; auto.
Qed.

(** One episode that returns: the transitions it saw, one per [env.step]
    in the order of the calls. *)
Lemma episode_record body g actor random noise render add_memory fuel :
  forall obs0 score steps w score' steps' w',
    episode body fuel g actor random noise render add_memory obs0 score
      steps w = (Ok (score', steps'), w') ->
    exists t trs,
      env_log w' = env_log w ++ t /\
      steps_of t = map step_of trs /\
      steps' = steps + length trs /\
      1 <= length trs /\
      (score' == score + sum_Q (map reward_of trs))%Q /\
      memory w' =
        (if add_memory then add_all trs (memory w) else memory w) /\
      rest_of w' = rest_of w.
Proof.
  induction fuel as [|fuel IH]; intros obs0 score steps w score' steps' w' E;
    simpl in E; [discriminate|].
  apply bind_ok in E as (a & w1 & E1 & E).
  apply bind_ok in E as ([[n_obs reward] done] & w2 & E2 & E).
  apply bind_ok in E as ([] & w3 & E3 & E).
  apply bind_ok in E as ([] & w4 & E4 & E).
  apply bind_ok in E as ([] & w5 & E5 & E).
  pose proof (policy_log _ _ _ _ _ _ _ _ _ E1) as (L1 & _).
  apply policy_frame in E1 as (M1 & R1).
  pose proof (step_env_ok _ _ _ _ _ _ E2) as L2.
  assert (M2 : memory w2 = memory w1 /\ rest_of w2 = rest_of w1).
  { unfold step_env in E2. destruct (env_step a (w_env w1)) as [[[? ?] ?] ?].
    inversion E2. auto. }
  destruct M2 as [M2 R2].
  assert (M3 : env_log w3 = env_log w2 /\ rest_of w3 = rest_of w2 /\
               memory w3 =
                 if add_memory
                 then mem_add (obs0, n_obs, a, reward, done) (memory w2)
                 else memory w2)
    by (destruct add_memory; simpl in E3; inversion E3; auto).
  destruct M3 as (L3 & R3 & M3).
  assert (M4 : env_log w4 =
                 env_log w3 ++ (if render then [EnvRender] else []) /\
               rest_of w4 = rest_of w3 /\ memory w4 = memory w3).
  { destruct render; simpl in E4; inversion E4; simpl;
      rewrite ?app_nil_r; auto. }
  destruct M4 as (L4 & R4 & M4).
  assert (M5 : env_log w5 =
                 env_log w4 ++ (if done then [EnvReset] else []) /\
               rest_of w5 = rest_of w4 /\ memory w5 = memory w4).
  { destruct done; simpl in E5; [|inversion E5; rewrite app_nil_r; auto].
    unfold bind, reset_env in E5. destruct (env_reset (w_env w4)).
    inversion E5. auto. }
  destruct M5 as (L5 & R5 & M5).
  set (tr := (obs0, n_obs, a, reward, done) : transition) in *.
  set (t1 := [EnvStep a done] ++ (if render then [EnvRender] else [])).
  assert (Hs1 : steps_of t1 = [(a, done)]) by (destruct render; reflexivity).
  destruct done.
  - inversion E; subst score' steps' w'. clear E.
    exists (t1 ++ [EnvReset]), [tr].
      split; [|split; [|split; [|split; [|split; [|split]]]]].
    + rewrite L5, L4, L3, L2, L1. unfold t1. rewrite <- !app_assoc.
      reflexivity.
    + rewrite steps_of_app, Hs1. reflexivity.
    + reflexivity.
    + simpl. lia.
    + simpl. ring.
    + rewrite M5, M4, M3, M2, M1. destruct add_memory; reflexivity.
    + congruence.
  - apply IH in E as (t & trs & Lt & Hst & Hsteps & Hlen & Hscore & Hmem
                        & Hrest).
    exists (t1 ++ t), (tr :: trs).
      split; [|split; [|split; [|split; [|split; [|split]]]]].
    + rewrite Lt, L5, L4, L3, L2, L1. unfold t1.
      rewrite app_nil_r, <- !app_assoc. reflexivity.
    + rewrite steps_of_app, Hs1, Hst. reflexivity.
    + simpl. lia.
    + simpl. lia.
    + rewrite Hscore. simpl. ring.
    + rewrite Hmem, M5, M4, M3, M2, M1. destruct add_memory; reflexivity.
    + congruence.
Qed.

Lemma add_all_app trs trs' m :
  add_all (trs ++ trs') m = add_all trs' (add_all trs m).
Proof. unfold add_all. apply foldl_app. Qed.

Lemma episodes_record body g actor random noise render add_memory fuel todo :
  forall scores steps w scores' steps' w',
    episodes body fuel g actor random noise render add_memory todo scores
      steps w = (Ok (scores', steps'), w') ->
    exists t trs,
      env_log w' = env_log w ++ t /\
      steps_of t = map step_of trs /\
      steps' = steps + length trs /\
      todo <= length trs /\
      length scores' = length scores + todo /\
      (sum_Q scores' == sum_Q scores + sum_Q (map reward_of trs))%Q /\
      memory w' =
        (if add_memory then add_all trs (memory w) else memory w) /\
      rest_of w' = rest_of w.
Proof.
  induction todo as [|todo IH]; intros scores steps w scores' steps' w' E;
    simpl in E.
  - inversion E; subst. exists [], []. rewrite app_nil_r. simpl.
    split; [|split; [|split; [|split; [|split; [|split; [|split]]]]]];
      try reflexivity; try lia; [ring | destruct add_memory; reflexivity].
  - apply bind_ok in E as (obs0 & w1 & E1 & E).
    apply bind_ok in E as ([score steps1] & w2 & E2 & E).
    assert (M1 : env_log w1 = env_log w ++ [EnvReset] /\
                 memory w1 = memory w /\ rest_of w1 = rest_of w).
    { unfold reset_env in E1. destruct (env_reset (w_env w)).
      inversion E1. auto. }
    destruct M1 as (L1 & M1 & R1).
    apply episode_record in E2 as (t2 & trs2 & L2 & S2 & N2 & P2 & Q2 & M2
                                     & R2).
    apply IH in E as (t3 & trs3 & L3 & S3 & N3 & P3 & Len3 & Q3 & M3 & R3).
    exists ([EnvReset] ++ t2 ++ t3), (trs2 ++ trs3).
      split; [|split; [|split; [|split; [|split; [|split; [|split]]]]]].
    + rewrite L3, L2, L1, <- !app_assoc. reflexivity.
    + rewrite !steps_of_app, S2, S3, map_app. reflexivity.
    + rewrite length_app. lia.
    + rewrite length_app. lia.
    + rewrite Len3, length_app. simpl. lia.
    + rewrite Q3, map_app, !sum_Q_app.
      change (sum_Q [score]) with (score + 0)%Q. rewrite Q2. ring.
    + rewrite M3, M2, M1. destruct add_memory; [|reflexivity].
      symmetry. apply add_all_app.
    + congruence.
Qed.

(** X7.  When [evaluate] returns, the step count it returns is the number of
    [env.step] calls it made, at least one per episode; with [add_memory]
    every step was added to the replay memory once, in order, with the
    action and the [done] flag of the call, and without [add_memory] the
    memory is as it was; the agent, the optimizer, the console and the
    files are untouched. *)
Theorem evaluate_steps_and_memory body fuel g actor n_episodes random noise
  render add_memory w f steps w' :
  evaluate body fuel g actor n_episodes random noise render add_memory w =
    (Ok (f, steps), w') ->
  exists t trs,
    env_log w' = env_log w ++ t /\
    steps_of t = map step_of trs /\
    steps = length trs /\
    Z.to_nat n_episodes <= steps /\
    memory w' = (if add_memory then add_all trs (memory w) else memory w) /\
    rest_of w' = rest_of w.
Proof.
  unfold evaluate. intros E.
  apply bind_ok in E as ([scores steps0] & w1 & E1 & E).
  inversion E; subst. clear E.
  apply episodes_record in E1
    as (t & trs & L & S & N & P & _ & _ & Mem & R).
  exists t, trs.
  split; [exact L|]. split; [exact S|]. split; [lia|]. split; [lia|].
  split; [exact Mem | exact R].
Qed.

Lemma rewards_from_app random t1 t2 :
  forall s,
    rewards_from random (t1 ++ t2) s =
      (fst (rewards_from random t1 s)
         ++ fst (rewards_from random t2 (snd (rewards_from random t1 s))),
       snd (rewards_from random t2 (snd (rewards_from random t1 s)))).
Proof.
  induction t1 as [|[|a d|] t1 IH]; intros s; simpl.
  - destruct (rewards_from random t2 s). reflexivity.
  - apply IH.
  - rewrite IH. reflexivity.
  - apply IH.
Qed.

Lemma policy_env body g actor random noise state w a w' :
  policy body g actor random noise state w = (Ok a, w') ->
  w_env w' =
    if random then snd (action_space_sample (w_env w)) else w_env w.
Proof.
  unfold policy, bind, ret, raise, lift, sample_noise, sample_action.
  intros E. destruct random, noise; simpl in E.
  1-3: destruct (action_space_sample (w_env w)); inversion E; reflexivity.
  - inversion E. reflexivity.
  - discriminate.
  - destruct (noise_sample (a_noise w)). simpl in E.
    destruct (np_iadd _ _); inversion E. reflexivity.
Qed.

(** One episode that returns: its score is what the rewards of its
    [env.step] calls add up to. *)
Lemma episode_rewards body g actor random noise render add_memory fuel :
  forall obs0 score steps w score' steps' w',
    episode body fuel g actor random noise render add_memory obs0 score
      steps w = (Ok (score', steps'), w') ->
    exists t,
      env_log w' = env_log w ++ t /\
      snd (rewards_from random t (w_env w)) = w_env w' /\
      (score' == score + sum_Q (fst (rewards_from random t (w_env w))))%Q.
Proof.
  induction fuel as [|fuel IH]; intros obs0 score steps w score' steps' w' E;
    simpl in E; [discriminate|].
  apply bind_ok in E as (a & w1 & E1 & E).
  apply bind_ok in E as ([[n_obs reward] done] & w2 & E2 & E).
  apply bind_ok in E as ([] & w3 & E3 & E).
  apply bind_ok in E as ([] & w4 & E4 & E).
  apply bind_ok in E as ([] & w5 & E5 & E).
  pose proof (policy_log _ _ _ _ _ _ _ _ _ E1) as (L1 & _).
  apply policy_env in E1 as V1.
  pose proof (step_env_ok _ _ _ _ _ _ E2) as L2.
  assert (V2 : env_step a (w_env w1) = (n_obs, reward, done, w_env w2)).
  { unfold step_env in E2.
    destruct (env_step a (w_env w1)) as [[[? ?] ?] ?]. inversion E2.
    reflexivity. }
  assert (V3 : env_log w3 = env_log w2 /\ w_env w3 = w_env w2)
    by (destruct add_memory; simpl in E3; inversion E3; auto).
  destruct V3 as (L3 & V3).
  assert (V4 : env_log w4 =
                 env_log w3 ++ (if render then [EnvRender] else []) /\
               w_env w4 =
                 if render then env_render (w_env w3) else w_env w3).
  { destruct render; simpl in E4; inversion E4; simpl;
      rewrite ?app_nil_r; auto. }
  destruct V4 as (L4 & V4).
  assert (V5 : env_log w5 =
                 env_log w4 ++ (if done then [EnvReset] else []) /\
               w_env w5 =
                 if done then snd (env_reset (w_env w4)) else w_env w4).
  { destruct done; simpl in E5; [|inversion E5; rewrite app_nil_r; auto].
    unfold bind, reset_env in E5. destruct (env_reset (w_env w4)).
    inversion E5. auto. }
  destruct V5 as (L5 & V5).
  set (t1 := [EnvStep a done] ++ (if render then [EnvRender] else [])
               ++ (if done then [EnvReset] else [])).
  assert (Ht1 : rewards_from random t1 (w_env w) = ([reward], w_env w5)).
  { unfold t1. simpl. rewrite <- V1, V2. simpl.
    rewrite V5, V4, V3. destruct render, done; reflexivity. }
  assert (Hl1 : env_log w5 = env_log w ++ t1).
  { rewrite L5, L4, L3, L2, L1. unfold t1. rewrite <- !app_assoc.
    reflexivity. }
  destruct done.
  - inversion E; subst score' steps' w'. clear E.
    exists t1. split; [exact Hl1|]. rewrite Ht1. split; [reflexivity|].
    simpl. ring.
  - apply IH in E as (t & Lt & Vt & Hscore).
    exists (t1 ++ t). split; [rewrite Lt, Hl1, <- app_assoc; reflexivity|].
    rewrite rewards_from_app, Ht1. cbn [fst snd]. split; [exact Vt|].
    rewrite Hscore. simpl. ring.
Qed.

Lemma episodes_rewards body g actor random noise render add_memory fuel
  todo :
  forall scores steps w scores' steps' w',
    episodes body fuel g actor random noise render add_memory todo scores
      steps w = (Ok (scores', steps'), w') ->
    exists t,
      env_log w' = env_log w ++ t /\
      snd (rewards_from random t (w_env w)) = w_env w' /\
      (sum_Q scores' ==
         sum_Q scores + sum_Q (fst (rewards_from random t (w_env w))))%Q.
Proof.
  induction todo as [|todo IH]; intros scores steps w scores' steps' w' E;
    simpl in E.
  - inversion E; subst. exists []. rewrite app_nil_r. simpl.
    split; [reflexivity|]. split; [reflexivity | ring].
  - apply bind_ok in E as (obs0 & w1 & E1 & E).
    apply bind_ok in E as ([score steps1] & w2 & E2 & E).
    assert (V1 : env_log w1 = env_log w ++ [EnvReset] /\
                 w_env w1 = snd (env_reset (w_env w))).
    { unfold reset_env in E1. destruct (env_reset (w_env w)).
      inversion E1. auto. }
    destruct V1 as (L1 & V1).
    apply episode_rewards in E2 as (t2 & L2 & V2 & Q2).
    apply IH in E as (t3 & L3 & V3 & Q3).
    exists ([EnvReset] ++ t2 ++ t3). split; [|split].
    + rewrite L3, L2, L1, <- !app_assoc. reflexivity.
    + simpl. rewrite <- V1, rewards_from_app. cbn [snd].
      rewrite V2. exact V3.
    + simpl. rewrite <- V1, rewards_from_app. cbn [fst].
      rewrite V2, Q3, !sum_Q_app.
      change (sum_Q [score]) with (score + 0)%Q. rewrite Q2. ring.
Qed.

(** X8.  When [evaluate] returns: for [n_episodes <= 0] the fitness is
    [nan], no step was made and nothing has changed; for
    [n_episodes >= 1] the fitness is a number, the sum of the rewards
    that the [env.step] calls of the run returned, divided by
    [n_episodes].  The rewards are those the environment gives when the
    calls of the run are made from the state it had at entry, and these
    calls bring it to the state it has at return. *)
Theorem evaluate_fitness body fuel g actor n_episodes random noise render
  add_memory w f steps w' :
  evaluate body fuel g actor n_episodes random noise render add_memory w =
    (Ok (f, steps), w') ->
  ((n_episodes <= 0)%Z -> f = NaN /\ steps = 0 /\ w' = w) /\
  ((0 < n_episodes)%Z ->
   exists total t,
     f = Fin (total / inject_Z n_episodes) /\
     env_log w' = env_log w ++ t /\
     (total == sum_Q (fst (rewards_from random t (w_env w))))%Q /\
     snd (rewards_from random t (w_env w)) = w_env w').
Proof.
  unfold evaluate. intros E.
  apply bind_ok in E as ([scores steps0] & w1 & E1 & E).
  inversion E; subst. clear E. split.
  - intros Hn. replace (Z.to_nat n_episodes) with 0 in E1 by lia.
    simpl in E1. inversion E1. auto.
  - intros Hn.
    pose proof (episodes_record _ _ _ _ _ _ _ _ _ _ _ _ _ _ _ E1)
      as (_ & _ & _ & _ & _ & _ & Len & _).
    apply episodes_rewards in E1 as (t & L & V & Sum).
    exists (sum_Q scores), t. split; [|split; [|split]]; trivial.
    + simpl in Len. destruct scores as [|s0 scores]; [simpl in Len; lia|].
      unfold np_mean. rewrite Len, Z2Nat.id by lia. reflexivity.
    + rewrite Sum. simpl. ring.
Qed.

Lemma rest_call {A} (m : M A) :
  (forall w r w', m w = (r, w') -> rest_of w' = rest_of w) ->
  triple (keeps rest_of) m any.
Proof. intros Hm. apply triple_any. exact Hm. Qed.

Lemma evaluate_rest body fuel g actor n_episodes random noise render
  add_memory :
  triple (keeps rest_of)
    (evaluate body fuel g actor n_episodes random noise render add_memory)
    any.
Proof.
  apply evaluate_triple with (good := any);
    try (intros; apply triple_any; intros w0 r0 w0' E0); unfold keeps.
  - reflexivity.
  - congruence.
  - unfold reset_env in E0. destruct (env_reset (w_env w0)).
    inversion E0. reflexivity.
  - unfold step_env in E0.
    destruct (env_step a (w_env w0)) as [[[? ?] ?] ?].
    inversion E0. reflexivity.
  - inversion E0. reflexivity.
  - inversion E0. reflexivity.
  - apply (policy_frame _ _ _ _ _ _ _ _ _ E0).
Qed.

(** X9.  Whatever its arguments and whatever its outcome, [evaluate] leaves the
    agent and the optimizer as they were, prints nothing, and writes
    neither a pickle nor a checkpoint. *)
Theorem evaluate_frame body fuel g actor n_episodes random noise render
  add_memory w :
  rest_of
    (snd (evaluate body fuel g actor n_episodes random noise render
            add_memory w)) = rest_of w.
Proof.
  destruct (evaluate _ _ _ _ _ _ _ _ _ w) as [r w'] eqn:E.
  apply (evaluate_rest _ _ _ _ _ _ _ _ _ _ _ _ E).
Qed.

Lemma bind_ext {A B} (m m' : M A) (k k' : A -> M B) w :
  m w = m' w -> (forall a w1, k a w1 = k' a w1) ->
  bind m k w = bind m' k' w.
Proof.
  intros Hm Hk. unfold bind. rewrite Hm.
  destruct (m' w) as [[a|e|] w1]; auto.
Qed.

Lemma episode_random body body' g actor actor' noise noise' render
  add_memory fuel :
  forall obs0 score steps w,
    episode body fuel g actor true noise render add_memory obs0 score steps w
    = episode body' fuel g actor' true noise' render add_memory obs0 score
        steps w.
Proof.
  induction fuel as [|fuel IH]; intros; [reflexivity|]. simpl.
  change (policy body g actor true noise obs0) with sample_action.
  change (policy body' g actor' true noise' obs0) with sample_action.
  apply bind_ext; [reflexivity|]. intros a w1.
  apply bind_ext; [reflexivity|]. intros [[n_obs reward] done] w2.
  apply bind_ext; [reflexivity|]. intros _ w3.
  apply bind_ext; [reflexivity|]. intros _ w4.
  apply bind_ext; [reflexivity|]. intros _ w5.
  destruct done; [reflexivity | apply IH].
Qed.

Lemma episodes_random body body' g actor actor' noise noise' render
  add_memory fuel todo :
  forall scores steps w,
    episodes body fuel g actor true noise render add_memory todo scores
      steps w
    = episodes body' fuel g actor' true noise' render add_memory todo scores
        steps w.
Proof.
  induction todo as [|todo IH]; intros; [reflexivity|]. simpl.
  apply bind_ext; [reflexivity|]. intros obs0 w1.
  apply bind_ext; [apply episode_random|]. intros [score steps1] w2.
  apply IH.
Qed.

(** X10.  With [random=True] the actor and the noise are never consulted:
    [evaluate] does the same for any two actors and any two [noise]
    arguments, also for [noise=False], which makes it raise otherwise. *)
Theorem evaluate_random_ignores_actor body body' fuel g actor actor'
  n_episodes noise noise' render add_memory w :
  evaluate body fuel g actor n_episodes true noise render add_memory w =
  evaluate body' fuel g actor' n_episodes true noise' render add_memory w.
Proof.
  unfold evaluate. apply bind_ext; [apply episodes_random|].
  intros [scores steps] w1. reflexivity.
Qed.

Lemma clip1_inside lo hi x : (lo <= x)%Q -> (x <= hi)%Q -> clip1 lo hi x = x.
Proof.
  intros Hlo Hhi. unfold clip1, Qmax, Qmin, GenericMinMax.gmax,
    GenericMinMax.gmin.
  destruct (Qcompare x lo) eqn:E1.
  - destruct (Qcompare x hi) eqn:E2; trivial.
    apply Qgt_alt in E2. apply Qle_not_lt in Hhi. contradiction.
  - apply Qlt_alt in E1. apply Qle_not_lt in Hlo. contradiction.
  - destruct (Qcompare x hi) eqn:E2; trivial.
    apply Qgt_alt in E2. apply Qle_not_lt in Hhi. contradiction.
Qed.

Lemma np_clip_inside m a :
  within m a -> np_clip a (inject_Z (- m)) (inject_Z m) = a.
Proof.
  unfold within, np_clip. induction 1 as [|x a [Hlo Hhi] _ IH]; simpl;
    [reflexivity|].
  rewrite IH, clip1_inside; trivial.
Qed.

Lemma scale_within m y :
  (0 <= m)%Z -> Forall (within 1) y -> within m (concat (scale m y)).
Proof.
  intros Hm Hy. unfold within, scale.
  induction Hy as [|row y Hrow _ IH]; simpl; [constructor|].
  apply Forall_app. split; [|exact IH]. clear IH.
  induction Hrow as [|b row [Hlo Hhi] _ IH]; simpl; constructor; trivial.
  rewrite inject_Z_opp. rewrite Zle_Qle in Hm.
  change (inject_Z (-1)) with (-(1))%Q in Hlo.
  change (inject_Z 1) with 1%Q in Hhi.
  change (inject_Z 0) with 0%Q in Hm.
  assert (Hup : (b * inject_Z m <= 1 * inject_Z m)%Q)
    by (apply Qmult_le_compat_r; assumption).
  assert (Hdown : (-(1) * inject_Z m <= b * inject_Z m)%Q)
    by (apply Qmult_le_compat_r; assumption).
  split; lra.
Qed.

(** The rule of [evaluate] for one given actor: the actions of its policy
    satisfy [good], and steps with [good] actions keep [R]. *)
Lemma evaluate_triple_for (R : world -> world -> Prop) body g actor random
  noise (good : action -> Prop) fuel n_episodes render add_memory :
  (forall w, R w w) ->
  (forall w1 w2 w3, R w1 w2 -> R w2 w3 -> R w1 w3) ->
  triple R reset_env any ->
  (forall a, good a -> triple R (step_env a) any) ->
  triple R render_env any ->
  (forall tr, triple R (memory_add tr) any) ->
  (forall state, triple R (policy body g actor random noise state) good) ->
  triple R
    (evaluate body fuel g actor n_episodes random noise render add_memory)
    any.
Proof.
  intros R_refl R_trans reset_R step_R render_R memory_add_R policy_R.
  assert (Hep : forall obs0 score steps,
             triple R
               (episode body fuel g actor random noise render add_memory
                  obs0 score steps) any).
  { induction fuel as [|fuel IH]; intros obs0 score steps; simpl.
    - apply triple_pure; [exact R_refl | reflexivity].
    - apply (triple_bind R R_trans _ _ good); [apply policy_R|].
      intros a Ha. apply (triple_bind R R_trans _ _ any); [apply step_R, Ha|].
      intros [[n_obs reward] done] _.
      apply (triple_bind R R_trans _ _ any);
        [apply triple_when; [exact R_refl | apply memory_add_R]|].
      intros _ _.
      apply (triple_bind R R_trans _ _ any);
        [apply triple_when; [exact R_refl | apply render_R]|].
      intros _ _. apply (triple_bind R R_trans _ _ any).
      { apply triple_when; [exact R_refl|].
        apply (triple_bind R R_trans _ _ any); [apply reset_R|].
        intros. apply triple_ret; [exact R_refl | exact I]. }
      intros _ _.
      destruct done; [apply triple_ret; [exact R_refl | exact I] | apply IH]. }
  unfold evaluate. apply (triple_bind R R_trans _ _ any).
  - generalize (@nil Q). generalize 0.
    induction (Z.to_nat n_episodes) as [|todo IH]; intros steps scores;
      simpl.
    + apply triple_ret; [exact R_refl | exact I].
    + apply (triple_bind R R_trans _ _ any); [apply reset_R|].
      intros obs0 _. apply (triple_bind R R_trans _ _ any); [apply Hep|].
      intros [score steps'] _. apply IH.
  - intros [scores steps] _. apply triple_ret; [exact R_refl | exact I].
Qed.

(** X11.  Without noise the clip changes nothing: when the actor was built with
    the global [max_action], this is not negative, and the body of
    [forward] answers within [[-1, 1]] (it ends in [tanh]), every action
    handed to [env.step] is exactly an output of the actor. *)
Theorem evaluate_hands_actor_output body fuel g actor n_episodes render
  add_memory w :
  (0 <= max_action g)%Z ->
  a_max_action actor = max_action g ->
  (forall ps x, Forall (within 1) (body ActorERL ps x)) ->
  exists t,
    env_log
      (snd (evaluate body fuel g actor n_episodes false NoiseNone render
              add_memory w)) = env_log w ++ t /\
    Forall
      (steps_satisfy (fun a => exists state, a = actor_call body actor state))
      t.
Proof.
  intros Hm Hactor Hbody.
  destruct (evaluate _ _ _ _ _ _ _ _ _ w) as [r w'] eqn:E.
  assert (Ht : triple
                 (grows env_log
                    (steps_satisfy
                       (fun a => exists state,
                                   a = actor_call body actor state)))
                 (evaluate body fuel g actor n_episodes false NoiseNone
                    render add_memory) any).
  { apply evaluate_triple_for
      with (good := fun a => exists state, a = actor_call body actor state);
      try (intros; apply triple_any; intros w0 r0 w0' E0).
    - apply grows_refl.
    - apply grows_trans.
    - eapply grows_one; [apply (reset_env_log _ _ _ E0) | exact I].
    - destruct (step_env_log _ _ _ _ E0) as [[d Hd] _].
      eapply grows_one; [exact Hd | assumption].
    - eapply grows_one; [apply (render_env_log _ _ _ E0) | exact I].
    - apply grows_same, (memory_add_log _ _ _ _ E0).
    - intros state w0 r0 w0' E0. split.
      + apply grows_same, (policy_log _ _ _ _ _ _ _ _ _ E0).
      + intros a0 ->. exists state.
        unfold policy, bind, ret in E0. simpl in E0.
        injection E0 as E0 _. rewrite <- E0.
        apply np_clip_inside. unfold actor_call, forward.
        rewrite Hactor. apply scale_within; [exact Hm | apply Hbody]. }
  apply (Ht _ _ _ E).
Qed.

(** *** [save_model] and [load_model] *)

(** X12.  A saved network loads back: after [save_model], [load_model]
    from the same place into a network with tensors of the same sizes
    returns normally and gives it the saved tensors, while it keeps the
    [max_action] it was constructed with (the state dict holds none).
    Into a network with other sizes (and no 0-dimensional tensor, as in
    every class of models.py) it raises, but not before
    [load_state_dict] has overwritten every tensor whose saved entry has
    its size: after the exception those tensors are the saved ones and
    only the others are as they were.  A place where nothing was saved is
    a [FileNotFoundError], and the network is not touched. *)
Theorem save_then_load saved other output net_name w :
  let w1 := snd (save_model saved output net_name w) in
  (map tsize (parameters other) = map tsize (parameters saved) ->
   load_model other (Some output) net_name w1 =
     (Ok (ActorNet (a_max_action other) (parameters saved)), w1)) /\
  (ranked (parameters other) ->
   map tsize (parameters other) <> map tsize (parameters saved) ->
   load_model other (Some output) net_name w1 =
     (Raise (RuntimeError "Error(s) in loading state_dict"), w1) /\
   fst (actor_load_state_dict other (parameters saved)) =
     Raise (RuntimeError "Error(s) in loading state_dict") /\
   a_max_action (snd (actor_load_state_dict other (parameters saved))) =
     a_max_action other /\
   forall i p,
     parameters other !! i = Some p ->
     parameters (snd (actor_load_state_dict other (parameters saved)))
       !! i =
       Some (match parameters saved !! i with
             | Some s => if bool_decide (tsize s = tsize p) then s else p
             | None => p
             end)) /\
  (checkpoints w !! (output +:+ "/" +:+ net_name +:+ ".pkl") = None ->
   load_model other (Some output) net_name w =
     (Raise (FileNotFoundError (output +:+ "/" +:+ net_name +:+ ".pkl")),
      w)).
Proof.
  cbv zeta. split; [|split].
  - intros Esz.
    unfold load_model, torch_load, bind, save_model. cbn [snd checkpoints].
    rewrite lookup_insert_eq. unfold actor_load_state_dict.
    rewrite (load_state_dict_same (parameters other) (parameters saved))
      by congruence.
    reflexivity.
  - intros Hr Esz.
    assert (Hl : load_state_dict (parameters other) (parameters saved) =
                   (Raise (RuntimeError "Error(s) in loading state_dict"),
                    snd (load_tensors (parameters other)
                           (parameters saved))))
      by (apply load_state_dict_other; [exact Hr | congruence]).
    split; [|split; [|split]].
    + unfold load_model, torch_load, bind, save_model.
      cbn [snd checkpoints]. rewrite lookup_insert_eq.
      unfold actor_load_state_dict. rewrite Hl. reflexivity.
    + unfold actor_load_state_dict. rewrite Hl. reflexivity.
    + unfold actor_load_state_dict. rewrite Hl. reflexivity.
    + intros i p Hi. unfold actor_load_state_dict. rewrite Hl.
      cbn [snd parameters]. apply load_tensors_lookup; assumption.
  - intros Hck. unfold load_model, torch_load, bind. rewrite Hck.
    reflexivity.
Qed.

(** *** [test] on no episode *)

(** X13.  [test] asked for no episode: with [n_test <= 0] and a saved
    actor that loads, [test] returns normally, makes no call on the
    environment, and with [debug] prints the fitness [nan]. *)
Theorem test_without_episode body actor_init fuel g n_test filename debug
  render w sd :
  (n_test <= 0)%Z ->
  checkpoints w !! (filename +:+ "/" +:+ "actor" +:+ ".pkl") = Some sd ->
  map tsize sd = map tsize (actor_init (state_dim g) (action_dim g)) ->
  exists w',
    test body actor_init fuel g n_test filename debug render w = (Ok tt, w')
    /\ env_log w' = env_log w
    /\ calls w' = calls w ++ (if debug then [PrLightPurple NaN] else []).
Proof.
  intros Hn Hck Hsz.
  unfold test, load_model, torch_load, bind. cbv beta iota. rewrite Hck.
  cbv beta iota. unfold actor_load_state_dict. cbn [parameters].
  rewrite (load_state_dict_same _ _ Hsz).
  unfold ret, evaluate, bind. cbv beta iota.
  replace (Z.to_nat n_test) with 0 by lia. simpl.
  destruct debug; simpl; eexists; (split; [reflexivity|]); simpl;
    rewrite ?app_nil_r; auto.
Qed.

(** *** The score log of [train] *)



(** *** How far [train_es] gets *)

Section Progress.
Variable body : arch -> list tensor -> list (list Q) -> list (list Q).
Variable actor_init : nat -> nat -> list tensor.
Variable remaining : env_state -> nat.
Variable k : nat.
Hypothesis reset_bound : forall s, remaining (snd (env_reset s)) <= k.
Hypothesis step_decreases :
  forall a s,
    snd (fst (env_step a s)) = false ->
    remaining (snd (env_step a s)) < remaining s.
Hypothesis sample_keeps :
  forall s, remaining (snd (action_space_sample s)) = remaining s.
Hypothesis render_keeps : forall s, remaining (env_render s) = remaining s.

Lemma actor_set_params_long actor v :
  ranked (parameters actor) -> count (parameters actor) <= length v ->
  exists ps,
    actor_set_params actor v = Ok (ActorNet (a_max_action actor) ps) /\
    map tsize ps = map tsize (parameters actor).
Proof.
  intros Hr Hlen. exists (fill v 0 (parameters actor)).
  unfold actor_set_params, set_params.
  rewrite set_params_from_fill by (trivial; lia).
  split; [reflexivity | apply fill_sizes].
Qed.

Lemma population_runs fuel g n_episodes debug render random pop :
  k < fuel ->
  forall actor batch_steps fitness f w,
    ranked (parameters actor) ->
    Forall (fun v => count (parameters actor) <= length v) pop ->
    exists actor' batch_steps' fitness' f' w',
      population body fuel g n_episodes debug render random pop actor
        batch_steps fitness f w =
        (Ok (actor', batch_steps', fitness ++ fitness', f'), w') /\
      length fitness' = length pop /\
      map tsize (parameters actor') = map tsize (parameters actor) /\
      es w' = es w /\
      calls w' =
        calls w ++ (if debug then map PrLightPurple fitness' else []).
Proof.
  intros Hfuel. induction pop as [|v pop IH];
    intros actor batch_steps fitness f w Hr Hpop; simpl.
  - exists actor, batch_steps, [], f, w. rewrite !app_nil_r.
    destruct debug; simpl; rewrite app_nil_r; auto.
  - inversion Hpop as [|? ? Hv Hrest]; subst.
    destruct (actor_set_params_long actor v Hr Hv) as (ps & -> & Esz).
    unfold bind at 1, lift at 1. cbv beta iota.
    destruct (evaluate_returns body remaining k reset_bound step_decreases
                sample_keeps render_keeps fuel g
                (ActorNet (a_max_action actor) ps) n_episodes random render
                true w Hfuel) as ([f1 steps1] & w1 & E1).
    pose proof (evaluate_rest _ _ _ _ _ _ _ _ _ _ _ _ E1) as [Hrest1 _].
    unfold bind at 1. rewrite E1. cbv beta iota.
    assert (Hr1 : ranked ps) by (apply (ranked_sizes _ _ Esz Hr)).
    assert (Hpop1 : Forall (fun v0 => count ps <= length v0) pop).
    { eapply Forall_impl; [exact Hrest|]. intros v0 Hv0. simpl.
      rewrite count_sizes, Esz, <- count_sizes. exact Hv0. }
    unfold keeps, rest_of in Hrest1. injection Hrest1 as _ Hes Hcalls _ _.
    destruct debug.
    + unfold bind at 1, when, log_call. cbv beta iota.
      match goal with
      | |- context [population _ _ _ _ _ _ _ _ ?a ?b ?fit ?f0 ?w0] =>
          destruct (IH a b fit f0 w0 Hr1 Hpop1)
            as (actor' & bs' & fit' & f' & w' & -> & Hlen & Esz' & Hes' & Hc')
      end.
      exists actor', bs', (f1 :: fit'), f', w'. simpl in *.
      rewrite <- app_assoc. split; [reflexivity|].
      split; [lia|]. split; [congruence|]. split; [congruence|].
      rewrite Hc', Hcalls, <- app_assoc. reflexivity.
    + unfold bind at 1, when, ret. cbv beta iota.
      match goal with
      | |- context [population _ _ _ _ _ _ _ _ ?a ?b ?fit ?f0 ?w0] =>
          destruct (IH a b fit f0 w0 Hr1 Hpop1)
            as (actor' & bs' & fit' & f' & w' & -> & Hlen & Esz' & Hes' & Hc')
      end.
      exists actor', bs', (f1 :: fit'), f', w'. simpl in *.
      rewrite <- app_assoc. split; [reflexivity|].
      split; [lia|]. split; [congruence|]. split; [congruence|].
      rewrite Hc', Hcalls, app_nil_r. reflexivity.
Qed.

(** X15.  The missing [actor_grad] is the only thing that stops [train_es]: on
    an environment whose episodes end, with fuel above their length, and
    with population vectors and a mean that have at least as many entries
    as the actor has parameters, [train_es] raises the [AttributeError]
    after it has asked for the population, evaluated every member (one
    fitness each, printed when [debug]) and told the optimizer, which is
    left in the state [es.tell] gave it. *)
Theorem train_es_stops_at_actor_grad fuel g n_episodes debug render random
  w :
  k < fuel ->
  ranked (actor_init (state_dim g) (action_dim g)) ->
  Forall
    (fun v => count (actor_init (state_dim g) (action_dim g)) <= length v)
    (fst (es_ask (es w))) ->
  (forall fitness,
     count (actor_init (state_dim g) (action_dim g)) <=
       length (es_mu (es_tell fitness (fst (es_ask (es w)))
                        (snd (es_ask (es w)))))) ->
  exists fitness w',
    train_es body actor_init fuel g n_episodes debug render random w =
      (Raise
         (AttributeError "'ActorERL' object has no attribute 'actor_grad'"),
       w') /\
    length fitness = length (fst (es_ask (es w))) /\
    calls w' =
      calls w ++ [EsAsk]
        ++ (if debug then map PrLightPurple fitness else [])
        ++ [EsTell fitness (fst (es_ask (es w)))] /\
    es w' = es_tell fitness (fst (es_ask (es w))) (snd (es_ask (es w))).
Proof.
  intros Hfuel Hr Hpop Hmu. unfold train_es.
  unfold bind at 1, ask. destruct (es_ask (es w)) as [pop s] eqn:Eask.
  cbv beta iota. simpl fst in *. simpl snd in *.
  match goal with
  | |- context [bind (population _ _ _ _ _ _ _ ?p ?a ?b ?fit ?f0) _ ?w0] =>
      destruct (population_runs fuel g n_episodes debug render random p
                  Hfuel a b fit f0 w0 Hr Hpop)
        as (actor' & bs' & fit' & f' & w1 & E1 & Hlen & Esz & Hes & Hc)
  end.
  unfold bind at 1. rewrite E1. cbv beta iota. simpl app.
  unfold bind at 1, tell. cbv beta iota.
  unfold bind at 1, mu. cbv beta iota. cbn [es].
  assert (Hr' : ranked (parameters actor'))
    by (apply (ranked_sizes _ _ Esz Hr)).
  destruct (actor_set_params_long actor'
              (es_mu (es_tell fit' pop (es w1))) Hr') as (ps & Eset & _).
  { rewrite count_sizes, Esz, <- count_sizes. simpl in Hes. rewrite Hes.
    apply Hmu. }
  unfold bind at 1, lift at 1. rewrite Eset. cbv beta iota.
  unfold bind at 1, lift at 1. rewrite actor_grad_missing. cbv beta iota.
  exists fit'. eexists. split; [reflexivity|]. simpl in *.
  split; [exact Hlen|]. split; [|congruence].
  rewrite Hc. rewrite <- !app_assoc. reflexivity.
Qed.

Lemma actor_set_params_short actor v :
  ranked (parameters actor) -> length v < count (parameters actor) ->
  actor_set_params actor v =
    Raise (RuntimeError "shape is invalid for input size").
Proof.
  intros Hr Hlen. unfold actor_set_params, set_params.
  destruct (set_params_from_short v (parameters actor) 0 Hr) as [ps' ->];
    [lia | lia | reflexivity].
Qed.

Lemma population_stops fuel g n_episodes debug render random pre v post :
  k < fuel ->
  forall actor batch_steps fitness f w,
    ranked (parameters actor) ->
    Forall (fun u => count (parameters actor) <= length u) pre ->
    length v < count (parameters actor) ->
    exists fitness' w',
      population body fuel g n_episodes debug render random
        (pre ++ v :: post) actor batch_steps fitness f w =
        (Raise (RuntimeError "shape is invalid for input size"), w') /\
      length fitness' = length pre /\
      es w' = es w /\
      calls w' =
        calls w ++ (if debug then map PrLightPurple fitness' else []).
Proof.
  intros Hfuel. induction pre as [|u pre IH];
    intros actor batch_steps fitness f w Hr Hpre Hv; simpl.
  - exists [], w. unfold bind at 1, lift at 1.
    rewrite (actor_set_params_short actor v Hr Hv).
    destruct debug; simpl; rewrite app_nil_r; auto.
  - inversion Hpre as [|? ? Hu Hrest]; subst.
    destruct (actor_set_params_long actor u Hr Hu) as (ps & -> & Esz).
    unfold bind at 1, lift at 1. cbv beta iota.
    destruct (evaluate_returns body remaining k reset_bound step_decreases
                sample_keeps render_keeps fuel g
                (ActorNet (a_max_action actor) ps) n_episodes random render
                true w Hfuel) as ([f1 steps1] & w1 & E1).
    pose proof (evaluate_rest _ _ _ _ _ _ _ _ _ _ _ _ E1) as [Hrest1 _].
    unfold bind at 1. rewrite E1. cbv beta iota.
    assert (Ec : count ps = count (parameters actor))
      by (rewrite count_sizes, Esz, <- count_sizes; reflexivity).
    assert (Hr1 : ranked ps) by (apply (ranked_sizes _ _ Esz Hr)).
    assert (Hpre1 : Forall (fun u0 => count ps <= length u0) pre).
    { eapply Forall_impl; [exact Hrest|]. intros u0 Hu0. simpl.
      rewrite Ec. exact Hu0. }
    assert (Hv1 : length v < count ps) by (rewrite Ec; exact Hv).
    unfold keeps, rest_of in Hrest1. injection Hrest1 as _ Hes Hcalls _ _.
    destruct debug.
    + unfold bind at 1, when, log_call. cbv beta iota.
      match goal with
      | |- context [population _ _ _ _ _ _ _ _ ?a ?b ?fit ?f0 ?w0] =>
          destruct (IH a b fit f0 w0 Hr1 Hpre1 Hv1)
            as (fit' & w' & -> & Hlen & Hes' & Hc')
      end.
      exists (f1 :: fit'), w'. simpl in *.
      split; [reflexivity|]. split; [lia|]. split; [congruence|].
      rewrite Hc', Hcalls, <- app_assoc. reflexivity.
    + unfold bind at 1, when, ret. cbv beta iota.
      match goal with
      | |- context [population _ _ _ _ _ _ _ _ ?a ?b ?fit ?f0 ?w0] =>
          destruct (IH a b fit f0 w0 Hr1 Hpre1 Hv1)
            as (fit' & w' & -> & Hlen & Hes' & Hc')
      end.
      exists (f1 :: fit'), w'. simpl in *.
      split; [reflexivity|]. split; [lia|]. split; [congruence|].
      rewrite Hc', Hcalls, app_nil_r. reflexivity.
Qed.

(** X16.  A population vector with fewer entries than the actor has parameters
    stops [train_es] at that member: the members before it are evaluated
    (one fitness each, printed when [debug]), then [set_params] raises the
    [RuntimeError] of [view], and [es.tell] is never reached, so the
    optimizer stays in the state [es.ask] left. *)
Theorem train_es_short_member fuel g n_episodes debug render random w
  pre v post :
  k < fuel ->
  ranked (actor_init (state_dim g) (action_dim g)) ->
  fst (es_ask (es w)) = pre ++ v :: post ->
  Forall
    (fun u => count (actor_init (state_dim g) (action_dim g)) <= length u)
    pre ->
  length v < count (actor_init (state_dim g) (action_dim g)) ->
  exists fitness w',
    train_es body actor_init fuel g n_episodes debug render random w =
      (Raise (RuntimeError "shape is invalid for input size"), w') /\
    length fitness = length pre /\
    calls w' =
      calls w ++ [EsAsk]
        ++ (if debug then map PrLightPurple fitness else []) /\
    es w' = snd (es_ask (es w)).
Proof.
  intros Hfuel Hr Hpop Hpre Hv. unfold train_es.
  unfold bind at 1, ask. destruct (es_ask (es w)) as [pop s] eqn:Eask.
  cbv beta iota. simpl fst in *. simpl snd in *. subst pop.
  match goal with
  | |- context [bind (population _ _ _ _ _ _ _ _ ?a ?b ?fit ?f0) _ ?w0] =>
      destruct (population_stops fuel g n_episodes debug render random pre
                  v post Hfuel a b fit f0 w0 Hr Hpre Hv)
        as (fit' & w1 & E1 & Hlen & Hes & Hc)
  end.
  unfold bind at 1. rewrite E1. cbv beta iota.
  exists fit', w1. split; [reflexivity|]. simpl in *.
  split; [exact Hlen|]. split; [|exact Hes].
  rewrite Hc, <- app_assoc. reflexivity.
Qed.

End Progress.

End Evaluate.

Section Startup.
Context `{GymEnv} `{Agent} `{RandomProcess} `{Optimizer} `{Util}.

Lemma py_int_below (x : Q) :
  (0 <= x)%Q -> (0 <= py_int x)%Z /\ (inject_Z (py_int x) <= x)%Q.
Proof.
  destruct x as [n d]. unfold Qle, py_int. simpl. intros Hx.
  assert (Hn : (0 <= n)%Z) by lia.
  rewrite Z.quot_div_nonneg by lia.
  pose proof (Z.mul_div_le n (Z.pos d) ltac:(lia)) as Hdiv. split.
  - apply Z.div_pos; lia.
  - lia.
Qed.

Lemma within_below (m : Z) (b : Q) a :
  (inject_Z m <= b)%Q -> within m a -> within_Q b a.
Proof.
  intros Hb Ha. unfold within, within_Q in *.
  eapply Forall_impl; [exact Ha|]. intros x [Hlo Hhi].
  rewrite inject_Z_opp in Hlo. split; lra.
Qed.

(** X17.  The truncation never widens the range: when the upper bound of the
    action space is not negative, every entry of every action that
    [evaluate] with [random=False] hands to [env.step] lies within that
    bound in absolute value, whatever the actor and the noise. *)
Theorem actions_within_env_bound body a pk ck g w0 fuel actor n_episodes
  noise render add_memory w :
  startup a pk ck = Ok (g, w0) ->
  (0 <= action_space_high0 (gym_make (env a)))%Q ->
  exists t,
    env_log
      (snd (evaluate body fuel g actor n_episodes false noise render
              add_memory w)) = env_log w ++ t /\
    Forall
      (steps_satisfy (within_Q (action_space_high0 (gym_make (env a))))) t.
Proof.
  intros E Hhigh. apply startup_ok in E as (Hmax & _).
  destruct (py_int_below _ Hhigh) as [Hpos Hle]. rewrite <- Hmax in Hpos, Hle.
  destruct (evaluate_log_clipped body fuel g actor n_episodes noise render
              add_memory w) as (t & Ht & Hclip).
  exists t. split; [exact Ht|].
  revert Hclip. apply Forall_steps_impl. intros act Hact.
  apply (within_below (max_action g)); [exact Hle|].
  apply clipped_within; assumption.
Qed.

End Startup.

End GesMore.

(** * The further theorems on the stub instance *)

Module RunsMore.
Import Models Ges Vocab More Stub StubMore GesFacts GesMore.

Lemma evaluate_steps_and_memory_witness :
  exists t trs,
    env_log
      (snd (evaluate (H := stub_env 5 1) stub_body 10 stub_globals
              (ActorNet 1 linear11) 2 false NoiseNone false true stub_world))
      = env_log stub_world ++ t /\
    steps_of t = map step_of trs /\
    10 = length trs /\
    Z.to_nat 2 <= 10 /\
    memory
      (snd (evaluate (H := stub_env 5 1) stub_body 10 stub_globals
              (ActorNet 1 linear11) 2 false NoiseNone false true stub_world))
      = (if true then add_all trs (memory stub_world)
         else memory stub_world) /\
    rest_of
      (snd (evaluate (H := stub_env 5 1) stub_body 10 stub_globals
              (ActorNet 1 linear11) 2 false NoiseNone false true stub_world))
      = rest_of stub_world.
Proof.
  apply (evaluate_steps_and_memory (H := stub_env 5 1) stub_body 10
           stub_globals (ActorNet 1 linear11) 2 false NoiseNone false true
           stub_world (Fin (10 # 2)) 10).
  vm_compute. reflexivity.
Defined.

Lemma evaluate_fitness_witness :
  (exists total t,
     Fin (12 # 2) = Fin (total / inject_Z 2) /\
     env_log
       (snd (evaluate (H := ramp_env 3) stub_body 10 stub_globals
               (ActorNet 1 linear11) 2 false NoiseNone false true
               ramp_world)) = env_log ramp_world ++ t /\
     (total ==
        sum_Q
          (fst (rewards_from (H := ramp_env 3) false t
                  (w_env ramp_world))))%Q /\
     snd (rewards_from (H := ramp_env 3) false t (w_env ramp_world)) =
       w_env
         (snd (evaluate (H := ramp_env 3) stub_body 10 stub_globals
                 (ActorNet 1 linear11) 2 false NoiseNone false true
                 ramp_world)))
  /\ (NaN = NaN /\ 0 = 0 /\ stub_world = stub_world).
Proof.
  split.
  - destruct (evaluate_fitness (H := ramp_env 3) stub_body 10 stub_globals
                (ActorNet 1 linear11) 2 false NoiseNone false true
                ramp_world (Fin (12 # 2)) 6
                (snd (evaluate (H := ramp_env 3) stub_body 10 stub_globals
                        (ActorNet 1 linear11) 2 false NoiseNone false true
                        ramp_world))) as [_ Hpos];
      [vm_compute; reflexivity|].
    apply Hpos. lia.
  - destruct (evaluate_fitness (H := stub_env 5 1) stub_body 10 stub_globals
                (ActorNet 1 linear11) 0 false NoiseNone false true
                stub_world NaN 0 stub_world) as [Hnone _];
      [vm_compute; reflexivity|].
    apply Hnone. lia.
Defined.

(** In that run the steps of each of the two episodes pay 1, 2 and 3, so
    the fitness is 12 / 2. *)
Example ramp_run_rewards :
  evaluate (H := ramp_env 3) stub_body 10 stub_globals
    (ActorNet 1 linear11) 2 false NoiseNone false true ramp_world =
    (Ok (Fin (12 # 2), 6),
     snd (evaluate (H := ramp_env 3) stub_body 10 stub_globals
            (ActorNet 1 linear11) 2 false NoiseNone false true
            ramp_world)) /\
  fst (rewards_from (H := ramp_env 3) false
         (env_log
            (snd (evaluate (H := ramp_env 3) stub_body 10 stub_globals
                    (ActorNet 1 linear11) 2 false NoiseNone false true
                    ramp_world)))
         (w_env ramp_world)) = [1; 2; 3; 1; 2; 3]%Q.
Proof. split; vm_compute; reflexivity. Qed.

Lemma evaluate_hands_actor_output_witness :
  exists t,
    env_log
      (snd (evaluate (H := stub_env 5 1) stub_body 10 stub_globals
              (ActorNet 1 linear11) 1 false NoiseNone false true
              stub_world)) = env_log stub_world ++ t /\
    Forall
      (steps_satisfy
         (fun a =>
            exists state, a = actor_call stub_body (ActorNet 1 linear11) state))
      t.
Proof.
  apply (evaluate_hands_actor_output (H := stub_env 5 1) stub_body 10
           stub_globals (ActorNet 1 linear11) 1 false true stub_world).
  - simpl. lia.
  - reflexivity.
  - intros ps x. unfold stub_body.
    induction x as [|r x IH]; simpl; constructor; [|exact IH].
    constructor; [|constructor]. split; unfold Qle; simpl; lia.
Defined.

Lemma save_then_load_witness :
  load_model (H := stub_env 5 1) (ActorNet 7 linear11) (Some "run") "actor"
    (snd (save_model (H := stub_env 5 1) (ActorNet 1 [Tensor [1; 1] [3%Q];
                                                     Tensor [1] [4%Q]])
            "run" "actor" stub_world)) =
    (Ok (ActorNet (a_max_action (ActorNet 7 linear11))
           (parameters (ActorNet 1 [Tensor [1; 1] [3%Q]; Tensor [1] [4%Q]]))),
     snd (save_model (H := stub_env 5 1)
            (ActorNet 1 [Tensor [1; 1] [3%Q]; Tensor [1] [4%Q]]) "run"
            "actor" stub_world))
  /\ (load_model (H := stub_env 5 1)
        (ActorNet 7 [Tensor [1; 1] [0%Q]; Tensor [2] [0%Q; 0%Q]])
        (Some "run") "actor"
        (snd (save_model (H := stub_env 5 1)
                (ActorNet 1 [Tensor [1; 1] [3%Q]; Tensor [1] [4%Q]]) "run"
                "actor" stub_world)) =
      (Raise (RuntimeError "Error(s) in loading state_dict"),
       snd (save_model (H := stub_env 5 1)
              (ActorNet 1 [Tensor [1; 1] [3%Q]; Tensor [1] [4%Q]]) "run"
              "actor" stub_world)) /\
      fst (actor_load_state_dict
             (ActorNet 7 [Tensor [1; 1] [0%Q]; Tensor [2] [0%Q; 0%Q]])
             (parameters
                (ActorNet 1 [Tensor [1; 1] [3%Q]; Tensor [1] [4%Q]]))) =
        Raise (RuntimeError "Error(s) in loading state_dict") /\
      a_max_action
        (snd (actor_load_state_dict
                (ActorNet 7 [Tensor [1; 1] [0%Q]; Tensor [2] [0%Q; 0%Q]])
                (parameters
                   (ActorNet 1 [Tensor [1; 1] [3%Q]; Tensor [1] [4%Q]]))))
        = a_max_action
            (ActorNet 7 [Tensor [1; 1] [0%Q]; Tensor [2] [0%Q; 0%Q]]) /\
      forall i p,
        parameters
          (ActorNet 7 [Tensor [1; 1] [0%Q]; Tensor [2] [0%Q; 0%Q]]) !! i =
          Some p ->
        parameters
          (snd (actor_load_state_dict
                  (ActorNet 7 [Tensor [1; 1] [0%Q]; Tensor [2] [0%Q; 0%Q]])
                  (parameters
                     (ActorNet 1 [Tensor [1; 1] [3%Q]; Tensor [1] [4%Q]]))))
          !! i =
          Some (match
                  parameters
                    (ActorNet 1 [Tensor [1; 1] [3%Q]; Tensor [1] [4%Q]])
                    !! i
                with
                | Some s => if bool_decide (tsize s = tsize p) then s else p
                | None => p
                end))
  /\ load_model (H := stub_env 5 1) (ActorNet 7 linear11) (Some "run")
       "actor" stub_world =
     (Raise (FileNotFoundError ("run" +:+ "/" +:+ "actor" +:+ ".pkl")),
      stub_world).
Proof.
  split; [|split].
  - destruct (save_then_load (H := stub_env 5 1)
                (ActorNet 1 [Tensor [1; 1] [3%Q]; Tensor [1] [4%Q]])
                (ActorNet 7 linear11) "run" "actor" stub_world)
      as (Hsame & _ & _).
    apply Hsame. reflexivity.
  - destruct (save_then_load (H := stub_env 5 1)
                (ActorNet 1 [Tensor [1; 1] [3%Q]; Tensor [1] [4%Q]])
                (ActorNet 7 [Tensor [1; 1] [0%Q]; Tensor [2] [0%Q; 0%Q]])
                "run" "actor" stub_world) as (_ & Hother & _).
    apply Hother; [repeat constructor; discriminate | discriminate].
  - destruct (save_then_load (H := stub_env 5 1) (ActorNet 1 linear11)
                (ActorNet 7 linear11) "run" "actor" stub_world)
      as (_ & _ & Hnone).
    apply Hnone. vm_compute. reflexivity.
Defined.

(** In that failed load the first tensor, whose size fits, holds the
    saved value 3, and the second is as it was. *)
Example failed_load_overwrites :
  actor_load_state_dict
    (ActorNet 7 [Tensor [1; 1] [0%Q]; Tensor [2] [0%Q; 0%Q]])
    [Tensor [1; 1] [3%Q]; Tensor [1] [4%Q]] =
    (Raise (RuntimeError "Error(s) in loading state_dict"),
     ActorNet 7 [Tensor [1; 1] [3%Q]; Tensor [2] [0%Q; 0%Q]]).
Proof. vm_compute. reflexivity. Qed.

Lemma test_without_episode_witness :
  exists w',
    test (H := stub_env 5 1) stub_body stub_actor_init 10 stub_globals 0
      "run" true false saved_world = (Ok tt, w')
    /\ env_log w' = env_log saved_world
    /\ calls w' =
         calls saved_world ++ (if true then [PrLightPurple NaN] else []).
Proof.
  apply (test_without_episode (H := stub_env 5 1) stub_body stub_actor_init
           10 stub_globals 0 "run" true false saved_world linear11);
    [lia | vm_compute; reflexivity | reflexivity].
Defined.


Lemma train_es_stops_at_actor_grad_witness :
  exists fitness w',
    train_es (H := stub_env 5 1) stub_body stub_actor_init 10 stub_globals 1
      true false false stub_world =
      (Raise
         (AttributeError "'ActorERL' object has no attribute 'actor_grad'"),
       w') /\
    length fitness = length (fst (es_ask (es stub_world))) /\
    calls w' =
      calls stub_world ++ [EsAsk]
        ++ (if true then map PrLightPurple fitness else [])
        ++ [EsTell fitness (fst (es_ask (es stub_world)))] /\
    es w' =
      es_tell fitness (fst (es_ask (es stub_world)))
        (snd (es_ask (es stub_world))).
Proof.
  apply (train_es_stops_at_actor_grad (H := stub_env 5 1) stub_body
           stub_actor_init (fun s => 5 - s) 5).
  - simpl. intros. lia.
  - simpl. intros a s. do 5 (destruct s as [|s]; [lia|]). discriminate.
  - simpl. intros. lia.
  - simpl. intros. lia.
  - lia.
  - repeat constructor; discriminate.
  - repeat constructor.
  - intros fitness. vm_compute. lia.
Defined.

Lemma train_es_short_member_witness :
  exists fitness w',
    train_es (H := stub_env 5 1) stub_body stub_actor_init 10 stub_globals 1
      true false false
      short_world =
      (Raise (RuntimeError "shape is invalid for input size"), w') /\
    length fitness = length (@nil (list Q)) /\
    calls w' =
      calls short_world
        ++ [EsAsk] ++ (if true then map PrLightPurple fitness else []) /\
    es w' =
      snd (es_ask (es short_world)).
Proof.
  apply (train_es_short_member (H := stub_env 5 1) stub_body
           stub_actor_init (fun s => 5 - s) 5 ltac:(simpl; intros; lia)
           ltac:(simpl; intros a s;
                 do 5 (destruct s as [|s]; [lia|]); discriminate)
           ltac:(simpl; intros; lia) ltac:(simpl; intros; lia)
           10 stub_globals 1 true false false
           short_world
           [] [0%Q] [[0%Q]]).
  - lia.
  - repeat constructor; discriminate.
  - reflexivity.
  - constructor.
  - vm_compute. lia.
Defined.

Lemma actions_within_env_bound_witness :
  exists t,
    env_log
      (snd (evaluate (H := stub_env 5 (5 # 2)) stub_body 10
              (fst (started (5 # 2) default_args)) (ActorNet 2 linear11) 1
              false NoiseProcess false true
              (snd (started (5 # 2) default_args)))) =
      env_log (snd (started (5 # 2) default_args)) ++ t /\
    Forall
      (steps_satisfy
         (within_Q
            (action_space_high0 (GymEnv := stub_env 5 (5 # 2))
               (gym_make (GymEnv := stub_env 5 (5 # 2))
                  (env default_args))))) t.
Proof.
  apply (actions_within_env_bound (H := stub_env 5 (5 # 2)) stub_body
           default_args ∅ ∅ (fst (started (5 # 2) default_args))
           (snd (started (5 # 2) default_args)));
    [vm_compute; reflexivity | simpl; lra].
Defined.

(** In that run the bound is 5/2, [max_action] is 2, the actor answers
    2 * 1/2, the noise adds 5, and the environment is handed 2. *)
Example truncated_bound_run :
  env_log
    (snd (evaluate (H := stub_env 5 (5 # 2)) stub_body 10
            (fst (started (5 # 2) default_args)) (ActorNet 2 linear11) 1
            false NoiseProcess false true
            (snd (started (5 # 2) default_args)))) =
    [EnvReset; EnvStep [2%Q] false; EnvStep [2%Q] false;
     EnvStep [2%Q] false; EnvStep [2%Q] false; EnvStep [2%Q] true;
     EnvReset].
Proof. vm_compute. reflexivity. Qed.

End RunsMore.
